(** * httpc: client-side HTTP middleware chains

    A shallow embedding of package [httpc] (the wrappers [Client] and
    [RoundTripper], chain composition, and the built-in middlewares) together
    with the properties its specification states about them.

    Go values are modelled as follows.
    - A [*http.Request] is a location in a store of request structs; the URL
      and the header map of a request are themselves references into stores,
      so that a shallow copy of a request shares both with the original.
    - A [DoerFunc] is a function from a request pointer and the current world
      to an outcome and the next world.  An outcome is either a normal return
      of a response and an error, or a panic in flight.
    - A [MiddlewareFunc] is an optional transformer of [DoerFunc]s; [None] is
      the nil function value.
    - Time is a clock in the world; contexts carry absolute deadlines. *)

From Stdlib Require Import ZArith Ascii String.
From stdpp Require Import gmap strings list fin_maps.

Local Open Scope string_scope.
Local Open Scope list_scope.
Local Open Scope Z_scope.

(** ** Errors and dynamic values *)

(** [error] holds the error values this package can see: values made by
    [errors.New] (pointers, compared by address, here an allocation id),
    [context.DeadlineExceeded] (a comparable empty struct) and [*PanicError].
    [any] holds non-nil dynamic values; a panic always carries one, because
    the runtime turns [panic(nil)] into a [*runtime.PanicNilError]. *)
Inductive error : Type :=
| errorString (id : positive) (msg : string)
| deadlineExceededError
| PanicErrorPtr (Recovered : any) (Stack : string)
with any : Type :=
| AnyString (s : string)
| AnyInt (z : Z)
| AnyError (e : error)
| AnyRuntimeError (msg : string).

Fixpoint error_eq_dec (x y : error) {struct x} : {x = y} + {x <> y}
with any_eq_dec (x y : any) {struct x} : {x = y} + {x <> y}.
Proof.
  - decide equality;
      first [apply String.string_dec | apply Pos.eq_dec | apply any_eq_dec].
  - decide equality;
      first [apply String.string_dec | apply Z.eq_dec | apply error_eq_dec].
Defined.

#[global] Instance error_eq_decision : EqDecision error := error_eq_dec.
#[global] Instance any_eq_decision : EqDecision any := any_eq_dec.

(** The package-level sentinels, and the two errors of package [context]. *)
Definition ErrPanicRecovered : error := errorString 1 "panic recovered".
Definition ErrInsecureScheme : error := errorString 2 "insecure scheme".
Definition Canceled : error := errorString 3 "context canceled".
Definition DeadlineExceeded : error := deadlineExceededError.

(** [PanicError.Is] and [errors.Is].  None of the errors above has an
    [Unwrap] method, so [errors.Is] compares and then asks the error's own
    [Is] method, which only [*PanicError] has.  That method calls [errors.Is]
    again on its argument, hence the fuel: three rounds reach every case.
    Two [*PanicError] values are compared by content here and by address in
    Go; the answer is the same, for the [Is] method of one matches any
    other. *)
Fixpoint errors_Is_fuel (fuel : nat) (err target : error) : bool :=
  match fuel with
  | O => false
  | S fuel' =>
      if decide (err = target) then true
      else match err with
           | PanicErrorPtr _ _ => errors_Is_fuel fuel' target ErrPanicRecovered
           | _ => false
           end
  end.

Definition errors_Is (err target : error) : bool := errors_Is_fuel 3 err target.

(** ** Contexts *)

(** A context is the background context or a timer context derived from a
    parent.  The links are immutable; whether a context's [CancelFunc] has
    been called, and when, is state of the world, keyed by the context's id. *)
Inductive Context : Type :=
| backgroundCtx
| timerCtx (parent : Context) (id : positive) (deadline : Z).

(** ** Requests, responses, the world *)

Record URL : Type := mkURL {
  Scheme : string;
  Host : string;
  Path : string;
  RawPath : string;
  RawQuery : string;
  Fragment : string;
}.

Record Request : Type := mkRequest {
  Method : string;
  req_URL : option positive;
  req_Header : option positive;
  req_ctx : option Context;
}.

(** A response body is a reader.  [ctxBody] is a reader that blocks for
    [delay] before it yields its data and gives up with the context's error
    when the context is done first; [nopBody] yields its data at once. *)
Inductive ReadCloser : Type :=
| nopBody (data : string)
| ctxBody (ctx : Context) (delay : Z) (data : string).

Record Response : Type := mkResponse {
  StatusCode : Z;
  Body : option ReadCloser;
}.

Record World : Type := mkWorld {
  requests : gmap positive Request;
  urls : gmap positive URL;
  headers : gmap positive (gmap string (list string));
  cancels : gmap positive (option Z);
  now : Z;
  stdout : list string;
}.

Definition set_requests (f : gmap positive Request -> gmap positive Request)
    (w : World) : World :=
  mkWorld (f (requests w)) (urls w) (headers w) (cancels w) (now w) (stdout w).

Definition set_urls (f : gmap positive URL -> gmap positive URL)
    (w : World) : World :=
  mkWorld (requests w) (f (urls w)) (headers w) (cancels w) (now w) (stdout w).

Definition set_headers
    (f : gmap positive (gmap string (list string)) ->
         gmap positive (gmap string (list string)))
    (w : World) : World :=
  mkWorld (requests w) (urls w) (f (headers w)) (cancels w) (now w) (stdout w).

Definition set_cancels (f : gmap positive (option Z) -> gmap positive (option Z))
    (w : World) : World :=
  mkWorld (requests w) (urls w) (headers w) (f (cancels w)) (now w) (stdout w).

Definition set_now (t : Z) (w : World) : World :=
  mkWorld (requests w) (urls w) (headers w) (cancels w) t (stdout w).

(** [fmt.Print]. *)
Definition fmt_Print (s : string) (w : World) : World :=
  mkWorld (requests w) (urls w) (headers w) (cancels w) (now w)
          (stdout w ++ [s]).

(** ** Executors and middlewares *)

Inductive Outcome : Type :=
| Returns (resp : option Response) (err : option error)
| Panics (v : any).

(** [DoerFunc], the function type from a request pointer to a response
    pointer and an error; its methods [Do] and [RoundTrip] both call the
    function. *)
Definition DoerFunc : Type := positive -> World -> Outcome * World.

Definition DoerFunc_Do (f : DoerFunc) : DoerFunc := fun r w => f r w.
Definition DoerFunc_RoundTrip (f : DoerFunc) : DoerFunc := fun r w => f r w.

(** [type MiddlewareFunc func(next DoerFunc) DoerFunc]; [None] is nil. *)
Definition MiddlewareFunc : Type := option (DoerFunc -> DoerFunc).

(** The panic of a nil pointer dereference. *)
Definition nilDeref : any :=
  AnyRuntimeError "invalid memory address or nil pointer dereference".

(** ** Chain composition *)

(** The loop of [applyMiddlewares]: [n] is [i+1] for the loop variable [i],
    which runs from [len(mws)-1] down to [0]. *)
Fixpoint applyMiddlewares_loop (mws : list MiddlewareFunc) (n : nat)
    (chain : DoerFunc) : DoerFunc :=
  match n with
  | O => chain
  | S i =>
      applyMiddlewares_loop mws i
        (match mws !! i with
         | Some (Some mw) => mw chain
         | _ => chain
         end)
  end.

Definition applyMiddlewares (do : DoerFunc) (mws : list MiddlewareFunc)
    : DoerFunc :=
  applyMiddlewares_loop mws (length mws) do.

(** One step of nesting: a present middleware wraps, an absent one does not. *)
Definition wrap_with (m : MiddlewareFunc) (chain : DoerFunc) : DoerFunc :=
  match m with
  | Some mw => mw chain
  | None => chain
  end.

(** ** Interfaces *)

(** An interface value is represented by its method.  [Doer] has [Do];
    [http.RoundTripper] has [RoundTrip]. *)
Record Doer : Type := mkDoer { Do : DoerFunc }.
Record HttpRoundTripper : Type := mkHttpRoundTripper { RoundTrip : DoerFunc }.

(** [DoerFunc] implements both. *)
Definition DoerFunc_as_Doer (f : DoerFunc) : Doer := mkDoer (DoerFunc_Do f).
Definition DoerFunc_as_RoundTripper (f : DoerFunc) : HttpRoundTripper :=
  mkHttpRoundTripper (DoerFunc_RoundTrip f).

(** ** Slices of middlewares and the wrappers *)

(** A slice is a window on a backing array; the arrays live in the heap, so
    two slices may share one.  The nil slice has no array. *)
Record slice : Type := mkSlice {
  slice_array : option positive;
  slice_off : nat;
  slice_len : nat;
  slice_cap : nat;
}.

Definition nil_slice : slice := mkSlice None 0 0 0.

Record Client : Type := mkClient {
  Client_base : Doer;
  Client_chain : Doer;
  Client_middlewares : slice;
}.

Record RoundTripper : Type := mkRoundTripper {
  RoundTripper_base : HttpRoundTripper;
  RoundTripper_chain : DoerFunc;
  RoundTripper_middlewares : slice;
}.

Record Heap : Type := mkHeap {
  arrays : gmap positive (list MiddlewareFunc);
  clients : gmap positive Client;
  roundTrippers : gmap positive RoundTripper;
}.

(** The elements a slice shows. *)
Definition slice_elems (h : Heap) (s : slice) : list MiddlewareFunc :=
  match slice_array s with
  | None => []
  | Some a =>
      match arrays h !! a with
      | Some l => take (slice_len s) (drop (slice_off s) l)
      | None => []
      end
  end.

(** A slice is well formed when it is nil or a window inside an allocated
    array. *)
Definition slice_wf (h : Heap) (s : slice) : Prop :=
  match slice_array s with
  | None => True
  | Some a => is_Some (arrays h !! a)
  end.

(** [slices.Concat]: sum the lengths, grow a nil slice to that size (which
    allocates a new array unless the size is zero), append every slice.  Go
    rounds the capacity up to a size class; it is taken to be the size. *)
Definition slices_Concat (ss : list slice) (h : Heap) : slice * Heap :=
  let size := foldr (fun s n => (slice_len s + n)%nat) 0%nat ss in
  match size with
  | O => (nil_slice, h)
  | S _ =>
      let a := fresh (dom (arrays h)) in
      let elems := concat (map (slice_elems h) ss) in
      (mkSlice (Some a) 0 (length elems) size,
       mkHeap (<[a := elems]> (arrays h)) (clients h) (roundTrippers h))
  end.

(** [NewClient(doer, mws...)]: the slice is stored as it is passed. *)
Definition NewClient (doer : Doer) (mws : slice) (h : Heap)
    : positive * Heap :=
  let c := fresh (dom (clients h)) in
  (c, mkHeap (arrays h)
        (<[c := mkClient doer
                  (DoerFunc_as_Doer
                     (applyMiddlewares (Do doer) (slice_elems h mws)))
                  mws]> (clients h))
        (roundTrippers h)).

(** [(c *Client) Do(r)]. *)
Definition Client_Do (h : Heap) (c : positive) : DoerFunc :=
  fun r w =>
    match clients h !! c with
    | Some cl => Do (Client_chain cl) r w
    | None => (Panics nilDeref, w)
    end.

(** [(c *Client) With(mws...)]; [None] when [c] is not a client. *)
Definition Client_With (c : positive) (mws : slice) (h : Heap)
    : option (positive * Heap) :=
  match clients h !! c with
  | Some cl =>
      let '(all, h1) := slices_Concat [Client_middlewares cl; mws] h in
      Some (NewClient (Client_base cl) all h1)
  | None => None
  end.

(** [NewRoundTripper(rt, mws...)]. *)
Definition NewRoundTripper (rt : HttpRoundTripper) (mws : slice) (h : Heap)
    : positive * Heap :=
  let t := fresh (dom (roundTrippers h)) in
  (t, mkHeap (arrays h) (clients h)
        (<[t := mkRoundTripper rt
                  (applyMiddlewares (RoundTrip rt) (slice_elems h mws))
                  mws]> (roundTrippers h))).

(** [(t *RoundTripper) RoundTrip(r)]. *)
Definition RoundTripper_RoundTrip (h : Heap) (t : positive) : DoerFunc :=
  fun r w =>
    match roundTrippers h !! t with
    | Some tr => DoerFunc_RoundTrip (RoundTripper_chain tr) r w
    | None => (Panics nilDeref, w)
    end.

(** [(t *RoundTripper) With(mws...)]. *)
Definition RoundTripper_With (t : positive) (mws : slice) (h : Heap)
    : option (positive * Heap) :=
  match roundTrippers h !! t with
  | Some tr =>
      let '(all, h1) := slices_Concat [RoundTripper_middlewares tr; mws] h in
      Some (NewRoundTripper (RoundTripper_base tr) all h1)
  | None => None
  end.

(** ** Package [strings] *)

Definition strings_HasPrefix (s pre : string) : bool := String.prefix pre s.

Definition strings_HasSuffix (s suffix : string) : bool :=
  (String.length suffix <=? String.length s)%nat &&
  String.eqb
    (substring (String.length s - String.length suffix)
               (String.length suffix) s)
    suffix.

Definition strings_TrimSuffix (s suffix : string) : string :=
  if strings_HasSuffix s suffix
  then substring 0 (String.length s - String.length suffix) s
  else s.

(** ** Package [path] *)

Definition slash : ascii := "/"%char.
Definition dot : ascii := "."%char.

Fixpoint string_of_rev (out : list ascii) (acc : string) : string :=
  match out with
  | [] => acc
  | c :: out' => string_of_rev out' (String c acc)
  end.

(** The inner loop of the [..] case of [Clean]: the write index has just been
    decremented past [popped]; it keeps going back while it is above [dotdot]
    and the byte it stands on is not a separator.  The buffer is kept in
    reverse, so its write index is its length. *)
Fixpoint clean_backtrack (out : list ascii) (dotdot : nat) (popped : ascii)
    : list ascii :=
  match out with
  | [] => []
  | c :: out' =>
      if (dotdot <? length out)%nat && negb (Ascii.eqb popped slash)
      then clean_backtrack out' dotdot c
      else out
  end.

(** The main loop of [Clean] over the unread rest of the path.  [copying]
    says that the loop is inside the copy of a path element (the inner [for]
    of the default case); meeting a separator there ends the element, and the
    outer loop then skips that separator as an empty element. *)
Fixpoint clean_loop (rooted : bool) (inp : string) (out : list ascii)
    (dotdot : nat) (copying : bool) : list ascii :=
  match inp with
  | EmptyString => out
  | String c rest =>
      if copying then
        if Ascii.eqb c slash
        then clean_loop rooted rest out dotdot false
        else clean_loop rooted rest (c :: out) dotdot true
      else if Ascii.eqb c slash then
        clean_loop rooted rest out dotdot false
      else
        let plain :=
          let out1 :=
            if (rooted && negb (length out =? 1)%nat)
               || (negb rooted && negb (length out =? 0)%nat)
            then slash :: out else out in
          clean_loop rooted rest (c :: out1) dotdot true in
        if Ascii.eqb c dot then
          match rest with
          | EmptyString => clean_loop rooted rest out dotdot false
          | String c1 rest1 =>
              if Ascii.eqb c1 slash then
                clean_loop rooted rest out dotdot false
              else if Ascii.eqb c1 dot
                      && match rest1 with
                         | EmptyString => true
                         | String c2 _ => Ascii.eqb c2 slash
                         end
              then
                if (dotdot <? length out)%nat then
                  match out with
                  | [] => clean_loop rooted rest1 out dotdot false
                  | p :: out' =>
                      clean_loop rooted rest1 (clean_backtrack out' dotdot p)
                                 dotdot false
                  end
                else if negb rooted then
                  let out1 :=
                    if (0 <? length out)%nat then slash :: out else out in
                  let out2 := dot :: dot :: out1 in
                  clean_loop rooted rest1 out2 (length out2) false
                else clean_loop rooted rest1 out dotdot false
              else plain
          end
        else plain
  end.

(** [path.Clean]. *)
Definition path_Clean (path : string) : string :=
  match path with
  | EmptyString => "."
  | String c rest =>
      let out :=
        if Ascii.eqb c slash
        then clean_loop true rest [slash] 1 false
        else clean_loop false path [] 0 false in
      match out with
      | [] => "."
      | _ => string_of_rev out ""
      end
  end.

(** The buffer loop of [path.Join]. *)
Fixpoint join_buf (buf : string) (elem : list string) : string :=
  match elem with
  | [] => buf
  | e :: es =>
      if (0 <? String.length buf)%nat || negb (String.eqb e "") then
        join_buf ((if (0 <? String.length buf)%nat
                   then buf +:+ "/" else buf) +:+ e) es
      else join_buf buf es
  end.

(** [path.Join]. *)
Definition path_Join (elem : list string) : string :=
  match foldr (fun e n => (String.length e + n)%nat) 0%nat elem with
  | O => ""
  | S _ => path_Clean (join_buf "" elem)
  end.

(** ** Package [net/url], path encoding *)

Definition byte_in (lo hi c : ascii) : bool :=
  (N.leb (N_of_ascii lo) (N_of_ascii c)) && (N.leb (N_of_ascii c) (N_of_ascii hi)).

Definition is_alnum (c : ascii) : bool :=
  byte_in "a" "z" c || byte_in "A" "Z" c || byte_in "0" "9" c.

Definition byte_among (cs : string) (c : ascii) : bool :=
  existsb (Ascii.eqb c) (list_ascii_of_string cs).

(** [shouldEscape(c, encodePath)]. *)
Definition shouldEscape (c : ascii) : bool :=
  if is_alnum c then false
  else if byte_among "-_.~" c then false
  else if byte_among "$&+,/:;=?@" c then Ascii.eqb c "?"
  else true.

Definition upperhex (n : N) : ascii :=
  match String.get (N.to_nat n) "0123456789ABCDEF" with
  | Some c => c
  | None => "0"%char
  end.

(** [escape(s, encodePath)]. *)
Fixpoint escape (s : string) : string :=
  match s with
  | EmptyString => EmptyString
  | String c rest =>
      if shouldEscape c
      then String "%" (String (upperhex (N.shiftr (N_of_ascii c) 4))
                         (String (upperhex (N.land (N_of_ascii c) 15))
                            (escape rest)))
      else String c (escape rest)
  end.

Definition ishex (c : ascii) : bool :=
  byte_in "0" "9" c || byte_in "a" "f" c || byte_in "A" "F" c.

Definition unhex (c : ascii) : N :=
  if byte_in "0" "9" c then N_of_ascii c - N_of_ascii "0"
  else if byte_in "a" "f" c then N_of_ascii c - N_of_ascii "a" + 10
  else if byte_in "A" "F" c then N_of_ascii c - N_of_ascii "A" + 10
  else 0.

(** [unescape(s, encodePath)]; [None] is an [EscapeError]. *)
Fixpoint unescape (s : string) : option string :=
  match s with
  | EmptyString => Some EmptyString
  | String c rest =>
      if Ascii.eqb c "%" then
        match rest with
        | String a (String b rest2) =>
            if ishex a && ishex b
            then option_map
                   (String (ascii_of_N (N.lor (N.shiftl (unhex a) 4) (unhex b))))
                   (unescape rest2)
            else None
        | _ => None
        end
      else option_map (String c) (unescape rest)
  end.

(** [validEncoded(s, encodePath)]. *)
Fixpoint validEncoded (s : string) : bool :=
  match s with
  | EmptyString => true
  | String c rest =>
      (byte_among "!$&'()*+,;=:@[]%" c || negb (shouldEscape c))
      && validEncoded rest
  end.

(** [(u *URL) EscapedPath()]. *)
Definition URL_EscapedPath (u : URL) : string :=
  if negb (String.eqb (RawPath u) "") && validEncoded (RawPath u)
     && match unescape (RawPath u) with
        | Some p => String.eqb p (Path u)
        | None => false
        end
  then RawPath u
  else if String.eqb (Path u) "*" then "*"
  else escape (Path u).

(** [(u *URL) setPath(p)]; when [p] does not unescape the URL is left as it
    is (and the error is returned, which [JoinPath] drops). *)
Definition URL_setPath (u : URL) (p : string) : URL :=
  match unescape p with
  | None => u
  | Some path =>
      mkURL (Scheme u) (Host u) path
            (if String.eqb p (escape path) then "" else p)
            (RawQuery u) (Fragment u)
  end.

Definition string_tail (s : string) : string :=
  match s with
  | EmptyString => EmptyString
  | String _ t => t
  end.

(** [(u *URL) JoinPath(elem...)]: the value of the new URL, which the caller
    stores at a new address. *)
Definition URL_JoinPath (u : URL) (elem : list string) : URL :=
  let e0 := URL_EscapedPath u in
  let rel := negb (strings_HasPrefix e0 "/") in
  let elem1 := (if rel then "/" +:+ e0 else e0) :: elem in
  let p := if rel then string_tail (path_Join elem1) else path_Join elem1 in
  let p :=
    if strings_HasSuffix (List.last elem1 "") "/" && negb (strings_HasSuffix p "/")
    then p +:+ "/" else p in
  URL_setPath u p.

(** ** Package [context] *)

(** The first event that ends a context and the instant it happens: the call
    of its own [CancelFunc] (if it comes before the deadline), its deadline,
    or whatever ends its parent, whichever is earliest. *)
Fixpoint ctx_event (cs : gmap positive (option Z)) (c : Context)
    : option (Z * error) :=
  match c with
  | backgroundCtx => None
  | timerCtx parent id deadline =>
      let own :=
        match cs !! id with
        | Some (Some t) =>
            if t <? deadline then (t, Canceled)
            else (deadline, DeadlineExceeded)
        | _ => (deadline, DeadlineExceeded)
        end in
      match ctx_event cs parent with
      | Some (tp, ep) => if tp <=? fst own then Some (tp, ep) else Some own
      | None => Some own
      end
  end.

(** [ctx.Err()] at the current instant. *)
Definition ctx_Err (w : World) (c : Context) : option error :=
  match ctx_event (cancels w) c with
  | Some (t, e) => if t <=? now w then Some e else None
  | None => None
  end.

(** [context.WithTimeout(parent, d)]: the new context, and the id under which
    its [CancelFunc] records the cancellation. *)
Definition context_WithTimeout (parent : Context) (d : Z) (w : World)
    : Context * positive * World :=
  let id := fresh (dom (cancels w)) in
  (timerCtx parent id (now w + d), id, set_cancels (insert id None) w).

(** The [CancelFunc] of context [c] with id [id]: nothing when the context is
    already done, otherwise it ends the context now with [Canceled]. *)
Definition cancel (c : Context) (id : positive) (w : World) : World :=
  match ctx_Err w c with
  | Some _ => w
  | None => set_cancels (insert id (Some (now w))) w
  end.

(** [(r *Request) Context()]. *)
Definition Request_Context (req : Request) : Context :=
  match req_ctx req with
  | Some c => c
  | None => backgroundCtx
  end.

(** [(r *Request) WithContext(ctx)]: a shallow copy with the context
    replaced; the caller stores it at a new address. *)
Definition Request_WithContext (req : Request) (ctx : Context) : Request :=
  mkRequest (Method req) (req_URL req) (req_Header req) (Some ctx).

(** Reading a body to its end ([io.ReadAll]).  A [ctxBody] waits for its
    delay or for its context, whichever comes first. *)
Definition ReadAll (b : ReadCloser) (w : World)
    : string * option error * World :=
  match b with
  | nopBody data => (data, None, w)
  | ctxBody ctx delay data =>
      let ready := now w + delay in
      match ctx_event (cancels w) ctx with
      | Some (t, e) =>
          if t <=? ready then ("", Some e, set_now (Z.max (now w) t) w)
          else (data, None, set_now ready w)
      | None => (data, None, set_now ready w)
      end
  end.

(** ** The built-in middlewares *)

Section Builtins.

(** Two functions of the standard library are left abstract:
    [runtime/debug.Stack], which formats the stack of the calling
    goroutine, and [textproto.CanonicalMIMEHeaderKey]. *)
Variable debug_Stack : World -> string.
Variable CanonicalMIMEHeaderKey : string -> string.

(** [Recover]: the deferred function sets [err] when a panic is in flight;
    [resp] is then still nil, for the [return] never assigned it. *)
Definition Recover : MiddlewareFunc :=
  Some (fun next r w =>
    match next r w with
    | (Panics v, w') =>
        (Returns None (Some (PanicErrorPtr v (debug_Stack w'))), w')
    | (Returns resp err, w') => (Returns resp err, w')
    end).

(** The URL a request points to. *)
Definition request_url (w : World) (r : positive) : option (Request * URL) :=
  match requests w !! r with
  | Some req =>
      match req_URL req with
      | Some a =>
          match urls w !! a with
          | Some u => Some (req, u)
          | None => None
          end
      | None => None
      end
  | None => None
  end.

(** [StripSlashes]: [r.URL] is set to a new URL, whose [Path] alone is then
    trimmed. *)
Definition StripSlashes (stripTrailing : bool) : MiddlewareFunc :=
  Some (fun next r w =>
    match request_url w r with
    | None => (Panics nilDeref, w)
    | Some (req, u) =>
        let a := fresh (dom (urls w)) in
        let u1 := URL_JoinPath u [] in
        let w1 :=
          set_requests
            (insert r (mkRequest (Method req) (Some a) (req_Header req)
                                 (req_ctx req)))
            (set_urls (insert a u1) w) in
        let w2 :=
          if stripTrailing && (1 <? String.length (Path u1))%nat
             && strings_HasSuffix (Path u1) "/"
          then set_urls
                 (insert a (mkURL (Scheme u1) (Host u1)
                                  (strings_TrimSuffix (Path u1) "/")
                                  (RawPath u1) (RawQuery u1) (Fragment u1)))
                 w1
          else w1 in
        next r w2
    end).

(** [Secure]. *)
Definition Secure : MiddlewareFunc :=
  Some (fun next r w =>
    match request_url w r with
    | None => (Panics nilDeref, w)
    | Some (_, u) =>
        if negb (String.eqb (Scheme u) "https")
        then (Returns None (Some ErrInsecureScheme), w)
        else DoerFunc_RoundTrip next r w
    end).

(** [Timeout]: [cancel] is deferred, so it runs when [next] has returned
    and also when it has panicked. *)
Definition Timeout (d : Z) : MiddlewareFunc :=
  if d <=? 0 then None
  else
    Some (fun next r w =>
      match requests w !! r with
      | None => (Panics nilDeref, w)
      | Some req =>
          let '(ctx, id, w1) :=
            context_WithTimeout (Request_Context req) d w in
          let r2 := fresh (dom (requests w1)) in
          let w2 :=
            set_requests (insert r2 (Request_WithContext req ctx)) w1 in
          let '(out, w3) := next r2 w2 in
          (out, cancel ctx id w3)
      end).

(** [http.Header.Set] and [http.Header.Get]. *)
Definition Header_Set (h : gmap string (list string)) (k v : string)
    : gmap string (list string) :=
  <[CanonicalMIMEHeaderKey k := [v]]> h.

Definition Header_Get (h : gmap string (list string)) (k : string) : string :=
  match h !! CanonicalMIMEHeaderKey k with
  | Some (v :: _) => v
  | _ => ""
  end.

Definition Header_Values (h : gmap string (list string)) (k : string)
    : list string :=
  match h !! CanonicalMIMEHeaderKey k with
  | Some vs => vs
  | None => []
  end.

(** [SetHeader]. *)
Definition SetHeader (k v : string) : MiddlewareFunc :=
  if String.eqb k "" then None
  else
    Some (fun next r w =>
      match requests w !! r with
      | None => (Panics nilDeref, w)
      | Some req =>
          match req_Header req with
          | None =>
              (Panics (AnyRuntimeError "assignment to entry in nil map"), w)
          | Some a =>
              match headers w !! a with
              | None =>
                  (Panics (AnyRuntimeError "assignment to entry in nil map"),
                   w)
              | Some h =>
                  next r (set_headers (insert a (Header_Set h k v)) w)
              end
          end
      end).

Definition UserAgent (v : string) : MiddlewareFunc := SetHeader "User-Agent" v.
Definition Accept (v : string) : MiddlewareFunc := SetHeader "Accept" v.
Definition ContentType (v : string) : MiddlewareFunc :=
  SetHeader "Content-Type" v.
Definition Authorization (v : string) : MiddlewareFunc :=
  SetHeader "Authorization" v.

(** [AuthorizationBearer]. *)
Definition AuthorizationBearer (v : string) : MiddlewareFunc :=
  if String.eqb v "" then None
  else SetHeader "Authorization" ("Bearer " +:+ v).

End Builtins.

(** * Notions the properties are stated with *)

(** ** Chain composition *)

(** A middleware that does something before it forwards and something after
    [next] has returned, as in
    [before(r); resp, err := next(r); after(r); return resp, err].
    When [next] panics the statement after the call is not reached. *)
Definition around (before after : positive -> World -> World) : MiddlewareFunc :=
  Some (fun next r w =>
    match next r (before r w) with
    | (Returns resp err, w') => (Returns resp err, after r w')
    | (Panics v, w') => (Panics v, w')
    end).

Definition before_all (l : list ((positive -> World -> World) *
                                 (positive -> World -> World)))
    (r : positive) (w : World) : World :=
  foldl (fun w' ba => fst ba r w') w l.

Definition after_all (l : list ((positive -> World -> World) *
                                (positive -> World -> World)))
    (r : positive) (w : World) : World :=
  foldr (fun ba w' => snd ba r w') w l.

(** The order test of the specification: A, B, C around a recording base. *)
Definition printing (name : string) : MiddlewareFunc :=
  around (fun _ => fmt_Print (name +:+ " in")) (fun _ => fmt_Print (name +:+ " out")).

Definition recording_base : DoerFunc :=
  fun _ w => (Returns (Some (mkResponse 200 None)) None, fmt_Print "base" w).

Definition empty_world : World := mkWorld ∅ ∅ ∅ ∅ 0 [].

(** ** Derivation *)

(** What [c.With(mws...)] must achieve for a client [c] that holds [cl]: a
    new client on the same base, whose middlewares are the parent's followed
    by the new ones and whose chain is their composition, while the parent,
    its middlewares and its behaviour stay as they were. *)
Definition Client_derived (h : Heap) (c : positive) (cl : Client)
    (mws : slice) : Prop :=
  exists c' h' cl',
    Client_With c mws h = Some (c', h') /\
    c' <> c /\
    clients h' !! c' = Some cl' /\
    Client_base cl' = Client_base cl /\
    slice_elems h' (Client_middlewares cl')
    = slice_elems h (Client_middlewares cl) ++ slice_elems h mws /\
    Client_chain cl'
    = DoerFunc_as_Doer
        (applyMiddlewares (Do (Client_base cl))
           (slice_elems h (Client_middlewares cl) ++ slice_elems h mws)) /\
    clients h' !! c = Some cl /\
    slice_elems h' (Client_middlewares cl)
    = slice_elems h (Client_middlewares cl) /\
    Client_Do h' c = Client_Do h c.

(** The same for a round tripper. *)
Definition RoundTripper_derived (h : Heap) (t : positive) (tr : RoundTripper)
    (mws : slice) : Prop :=
  exists t' h' tr',
    RoundTripper_With t mws h = Some (t', h') /\
    t' <> t /\
    roundTrippers h' !! t' = Some tr' /\
    RoundTripper_base tr' = RoundTripper_base tr /\
    slice_elems h' (RoundTripper_middlewares tr')
    = slice_elems h (RoundTripper_middlewares tr) ++ slice_elems h mws /\
    RoundTripper_chain tr'
    = applyMiddlewares (RoundTrip (RoundTripper_base tr))
        (slice_elems h (RoundTripper_middlewares tr) ++ slice_elems h mws) /\
    roundTrippers h' !! t = Some tr /\
    slice_elems h' (RoundTripper_middlewares tr)
    = slice_elems h (RoundTripper_middlewares tr) /\
    RoundTripper_RoundTrip h' t = RoundTripper_RoundTrip h t.

(** A heap with one array of two middlewares, a client and a round tripper
    built on it. *)
Definition sample_heap0 : Heap :=
  mkHeap {[ 1%positive := [printing "A"; printing "B"];
            2%positive := [printing "C"] ]} ∅ ∅.
Definition sample_parent_mws : slice := mkSlice (Some 1%positive) 0 2 2.
Definition sample_new_mws : slice := mkSlice (Some 2%positive) 0 1 1.
Definition sample_heap : Heap :=
  snd (NewRoundTripper (DoerFunc_as_RoundTripper recording_base)
         sample_parent_mws
         (snd (NewClient (DoerFunc_as_Doer recording_base) sample_parent_mws
                 sample_heap0))).
Definition sample_client : Client :=
  mkClient (DoerFunc_as_Doer recording_base)
    (DoerFunc_as_Doer
       (applyMiddlewares (Do (DoerFunc_as_Doer recording_base))
          [printing "A"; printing "B"]))
    sample_parent_mws.
Definition sample_roundTripper : RoundTripper :=
  mkRoundTripper (DoerFunc_as_RoundTripper recording_base)
    (applyMiddlewares (RoundTrip (DoerFunc_as_RoundTripper recording_base))
       [printing "A"; printing "B"])
    sample_parent_mws.

Definition sample_stack : World -> string := fun _ => "goroutine 1 [running]:".
Definition panicking_base : DoerFunc := fun _ w => (Panics (AnyString "boom"), w).

Definition sample_url (scheme path : string) : URL :=
  mkURL scheme "example.com" path "" "q=1" "top".

Definition sample_world (u : URL) : World :=
  mkWorld {[ 1%positive := mkRequest "GET" (Some 1%positive) (Some 1%positive)
                             None ]}
          {[ 1%positive := u ]}
          {[ 1%positive := {[ "X-Foo" := ["old"; "older"] ]} ]}
          ∅ 0 [].

(** ** Timeout *)

(** The ids of the contexts on the way from a context to the background. *)
Fixpoint ctx_ids (c : Context) : gset positive :=
  match c with
  | backgroundCtx => ∅
  | timerCtx parent id _ => {[ id ]} ∪ ctx_ids parent
  end.

(** Every context of the chain has been made by [context_WithTimeout]. *)
Definition ctx_wf (w : World) (c : Context) : Prop :=
  ctx_ids c ⊆ dom (cancels w).

(** A base executor that returns at once a response whose body waits for
    [delay] under the context of the request it was given. *)
Definition delayed_body_base (delay : Z) : DoerFunc :=
  fun r w =>
    match requests w !! r with
    | Some req =>
        (Returns
           (Some (mkResponse 200
                    (Some (ctxBody (Request_Context req) delay
                             "Some stubbed stuff."))))
           None, w)
    | None => (Panics nilDeref, w)
    end.

(** ** StripSlashes *)

(** The URL that [StripSlashes] leaves in [r.URL]. *)
Definition stripped_URL (stripTrailing : bool) (u : URL) : URL :=
  let u1 := URL_JoinPath u [] in
  if stripTrailing && (1 <? String.length (Path u1))%nat
     && strings_HasSuffix (Path u1) "/"
  then mkURL (Scheme u1) (Host u1) (strings_TrimSuffix (Path u1) "/")
             (RawPath u1) (RawQuery u1) (Fragment u1)
  else u1.

(** The path the specification describes: every run of separators becomes
    one separator ([prev_slash] says that the byte before was a separator),
    and on demand a trailing separator goes unless the path is the root. *)
Fixpoint collapse_aux (prev_slash : bool) (s : string) : string :=
  match s with
  | EmptyString => EmptyString
  | String c rest =>
      if Ascii.eqb c slash then
        if prev_slash then collapse_aux true rest
        else String c (collapse_aux true rest)
      else String c (collapse_aux false rest)
  end.

Definition spec_collapse_slashes (s : string) : string := collapse_aux false s.

Definition spec_strip_path (stripTrailing : bool) (p : string) : string :=
  let q := spec_collapse_slashes p in
  if stripTrailing && negb (String.eqb q "/") && strings_HasSuffix q "/"
  then strings_TrimSuffix q "/"
  else q.

(** A path element that [path.Clean] treats specially: [.] and [..]. *)
Definition is_dot_elem (s : string) : bool :=
  match s with
  | String c rest =>
      Ascii.eqb c dot
      && match rest with
         | EmptyString => true
         | String c1 _ => Ascii.eqb c1 slash
         end
  | EmptyString => false
  end.

Definition is_dotdot_elem (s : string) : bool :=
  match s with
  | String c (String c1 rest1) =>
      Ascii.eqb c dot && Ascii.eqb c1 dot
      && match rest1 with
         | EmptyString => true
         | String c2 _ => Ascii.eqb c2 slash
         end
  | _ => false
  end.

(** No element of the path is [.] or [..]; [at_start] says that the path
    is read from the start of an element. *)
Fixpoint dotfree (at_start : bool) (s : string) : bool :=
  match s with
  | EmptyString => true
  | String c rest =>
      if Ascii.eqb c slash then dotfree true rest
      else (negb at_start
            || (negb (is_dot_elem (String c rest))
                && negb (is_dotdot_elem (String c rest))))
           && dotfree false rest
  end.

(** A base executor that prints the path of the URL it is given. *)
Definition path_spy : DoerFunc :=
  fun r w =>
    match requests w !! r with
    | Some req =>
        match req_URL req with
        | Some a =>
            match urls w !! a with
            | Some u => (Returns (Some (mkResponse 200 None)) None,
                         fmt_Print (Path u) w)
            | None => (Panics nilDeref, w)
            end
        | None => (Panics nilDeref, w)
        end
    | None => (Panics nilDeref, w)
    end.

Definition seen_paths (strip : bool) (path : string) : list string :=
  stdout (snd (wrap_with (StripSlashes strip) path_spy 1%positive
                 (sample_world (sample_url "http" path)))).

(** The description of [StripSlashes] read as a statement about every
    request URL: the wrapped executor sees the described path and the other
    parts of the URL as they were. *)
Definition StripSlashes_as_described : Prop :=
  forall (strip : bool) (next : DoerFunc) (r : positive) (w : World)
         (req : Request) (u : URL),
    request_url w r = Some (req, u) ->
    exists w' req' u',
      wrap_with (StripSlashes strip) next r w = next r w' /\
      request_url w' r = Some (req', u') /\
      Path u' = spec_strip_path strip (Path u) /\
      Scheme u' = Scheme u /\ Host u' = Host u /\
      RawQuery u' = RawQuery u /\ Fragment u' = Fragment u.

(** The last byte of a string is a separator. *)
Fixpoint last_is_slash (s : string) : bool :=
  match s with
  | EmptyString => false
  | String c rest =>
      match rest with
      | EmptyString => Ascii.eqb c slash
      | String _ _ => last_is_slash rest
      end
  end.

(** *** [path.Clean] on rooted paths without [.] and [..] elements *)

(** The state of the loop of [Clean] on such a path: the buffer is the root
    alone, or it ends with a byte of an element. *)
Definition tidy (out : list ascii) (copying : bool) : Prop :=
  match out with
  | [] => False
  | [c] => c = slash /\ copying = false
  | c :: _ :: _ => c <> slash
  end.

(** The buffer, with the separator that has been read but not yet written. *)
Definition finish (out : list ascii) (copying : bool) : string :=
  string_of_rev out ""
  +:+ (if copying || (length out =? 1)%nat then "" else "/").

(** Whether the loop ends inside an element. *)
Fixpoint end_mode (inp : string) (copying : bool) : bool :=
  match inp with
  | EmptyString => copying
  | String c rest => end_mode rest (negb (Ascii.eqb c slash))
  end.

(** What [Clean] looks at after a [.]: the end of the path or a separator. *)
Definition ends_elem (s : string) : bool :=
  match s with
  | EmptyString => true
  | String c _ => Ascii.eqb c slash
  end.

(** The path that [JoinPath()] computes from the escaped path [e0]. *)
Definition joined_path (e0 : string) : string :=
  let rel := negb (strings_HasPrefix e0 "/") in
  let elem1 := [if rel then "/" +:+ e0 else e0] in
  let p := if rel then string_tail (path_Join elem1) else path_Join elem1 in
  if strings_HasSuffix (List.last elem1 "") "/" && negb (strings_HasSuffix p "/")
  then p +:+ "/" else p.

(** * Further notions *)

(** ** Wrappers *)

(** A client holds the composition of its middlewares around its base, and
    its middlewares are a slice of the heap. *)
Definition Client_coherent (h : Heap) (cl : Client) : Prop :=
  slice_wf h (Client_middlewares cl) /\
  Client_chain cl
  = DoerFunc_as_Doer
      (applyMiddlewares (Do (Client_base cl))
         (slice_elems h (Client_middlewares cl))).

Definition RoundTripper_coherent (h : Heap) (tr : RoundTripper) : Prop :=
  slice_wf h (RoundTripper_middlewares tr) /\
  RoundTripper_chain tr
  = applyMiddlewares (RoundTrip (RoundTripper_base tr))
      (slice_elems h (RoundTripper_middlewares tr)).

Definition heap_coherent (h : Heap) : Prop :=
  (forall c cl, clients h !! c = Some cl -> Client_coherent h cl) /\
  (forall t tr, roundTrippers h !! t = Some tr -> RoundTripper_coherent h tr).

(** A [*Client] used as a [Doer]. *)
Definition Client_as_Doer (h : Heap) (c : positive) : Doer :=
  mkDoer (Client_Do h c).

(** A [*RoundTripper] used as a [http.RoundTripper]. *)
Definition RoundTripper_as_RoundTripper (h : Heap) (t : positive)
    : HttpRoundTripper :=
  mkHttpRoundTripper (RoundTripper_RoundTrip h t).

(** The caller's assignment [s[i] = m] to an element of a slice; [None] is
    the panic of an index out of range. *)
Definition slice_store (s : slice) (i : nat) (m : MiddlewareFunc) (h : Heap)
    : option Heap :=
  match slice_array s with
  | Some a =>
      match arrays h !! a with
      | Some l =>
          if (i <? slice_len s)%nat && (slice_off s + i <? length l)%nat
          then Some (mkHeap (<[a := <[(slice_off s + i)%nat := m]> l]> (arrays h))
                            (clients h) (roundTrippers h))
          else None
      | None => None
      end
  | None => None
  end.

(** The middlewares that are present, in order. *)
Definition present (mws : list MiddlewareFunc) : list (DoerFunc -> DoerFunc) :=
  omap id mws.

(** ** Paths *)

(** No two separators follow each other; [prev_slash] says that the byte
    before the string is a separator. *)
Fixpoint norun (prev_slash : bool) (s : string) : bool :=
  match s with
  | EmptyString => true
  | String c rest =>
      if Ascii.eqb c slash then negb prev_slash && norun true rest
      else norun false rest
  end.

(** ** Package [httpctest] *)

(** [hash/adler32], by its definition: two sums modulo 65521, the first
    starting at one, joined into 32 bits. *)
Definition adler32_step (d : N * N) (x : ascii) : N * N :=
  let s1 := ((fst d + N_of_ascii x) mod 65521)%N in
  (s1, ((snd d + s1) mod 65521)%N).

Fixpoint adler32_update (d : N * N) (p : string) : N * N :=
  match p with
  | EmptyString => d
  | String x rest => adler32_update (adler32_step d x) rest
  end.

Definition adler32_Checksum (p : string) : N :=
  let d := adler32_update (1%N, 0%N) p in
  N.lor (N.shiftl (snd d) 16) (fst d).

Definition lowerhex (n : N) : ascii :=
  match String.get (N.to_nat n) "0123456789abcdef" with
  | Some c => c
  | None => "0"%char
  end.

(** The verb [%x] on one byte. *)
Definition hex_byte (b : N) : string :=
  String (lowerhex (N.shiftr b 4)) (String (lowerhex (N.land b 15)) "").

(** [buildName]: the four bytes of the sum, most significant first, in
    hexadecimal. *)
Definition buildName (b : string) : string :=
  let s := adler32_Checksum b in
  hex_byte (N.land (N.shiftr s 24) 255)
  +:+ hex_byte (N.land (N.shiftr s 16) 255)
  +:+ hex_byte (N.land (N.shiftr s 8) 255)
  +:+ hex_byte (N.land s 255).


Section Httpctest.

(** Left abstract: [httputil.DumpRequest(r, true)], which may replace the
    body of the request; [http.ReadResponse] on a reader over given bytes;
    [fmt.Errorf] with a prefix and the verb [%w]; and the file system, which
    is the function [fs.ReadFile] computes on it. *)
Variable DumpRequest : positive -> World -> (string + error) * World.
Variable ReadResponse : string -> positive -> option Response * option error.
Variable fmt_Errorf : string -> error -> error.

(** [ReplayBytes]. *)
Definition ReplayBytes (data : string) : DoerFunc :=
  fun r w =>
    let '(resp, err) := ReadResponse data r in (Returns resp err, w).



End Httpctest.

(** ** Basic authentication *)

(** The alphabet of [base64.StdEncoding]. *)
Definition encodeStd : string :=
  "ABCDEFGHIJKLMNOPQRSTUVWXYZabcdefghijklmnopqrstuvwxyz0123456789+/".

Definition enc64 (n : N) : ascii :=
  match String.get (N.to_nat n) encodeStd with
  | Some c => c
  | None => "A"%char
  end.

(** [enc.encode[val>>sh&0x3F]]. *)
Definition sextet (val sh : N) : ascii := enc64 (N.land (N.shiftr val sh) 63).

(** [base64.StdEncoding.EncodeToString]: groups of three bytes give four
    characters; one or two bytes left over give two or three characters and
    padding. *)
Fixpoint base64_EncodeToString (src : string) : string :=
  match src with
  | EmptyString => EmptyString
  | String a EmptyString =>
      let val := N.shiftl (N_of_ascii a) 16 in
      String (sextet val 18) (String (sextet val 12) "==")
  | String a (String b EmptyString) =>
      let val := N.lor (N.shiftl (N_of_ascii a) 16) (N.shiftl (N_of_ascii b) 8) in
      String (sextet val 18)
        (String (sextet val 12) (String (sextet val 6) "="))
  | String a (String b (String c rest)) =>
      let val :=
        N.lor (N.lor (N.shiftl (N_of_ascii a) 16) (N.shiftl (N_of_ascii b) 8))
              (N_of_ascii c) in
      String (sextet val 18)
        (String (sextet val 12)
           (String (sextet val 6)
              (String (sextet val 0) (base64_EncodeToString rest))))
  end.

(** [basicAuth] of package [net/http]. *)
Definition basicAuth (username password : string) : string :=
  base64_EncodeToString (username +:+ ":" +:+ password).

(** [AuthorizationBasic]: [r.SetBasicAuth(user, pass)] sets the header
    [Authorization] to the word Basic, a space and [basicAuth]. *)
Definition AuthorizationBasic (CanonicalMIMEHeaderKey : string -> string)
    (user pass : string) : MiddlewareFunc :=
  Some (fun next r w =>
    match requests w !! r with
    | None => (Panics nilDeref, w)
    | Some req =>
        match req_Header req with
        | None =>
            (Panics (AnyRuntimeError "assignment to entry in nil map"), w)
        | Some a =>
            match headers w !! a with
            | None =>
                (Panics (AnyRuntimeError "assignment to entry in nil map"), w)
            | Some h =>
                next r
                  (set_headers
                     (insert a
                        (Header_Set CanonicalMIMEHeaderKey h "Authorization"
                           ("Basic " +:+ basicAuth user pass)))
                     w)
            end
        end
    end).

(** A decoder for the encoding above, to read the credentials back. *)
Fixpoint index_of (c : ascii) (s : string) : option N :=
  match s with
  | EmptyString => None
  | String x rest =>
      if Ascii.eqb c x then Some 0%N else option_map N.succ (index_of c rest)
  end.

Definition dec64 (c : ascii) : option N := index_of c encodeStd.

Definition string_is_empty (s : string) : bool :=
  match s with
  | EmptyString => true
  | String _ _ => false
  end.

Fixpoint base64_decode (s : string) : option string :=
  match s with
  | EmptyString => Some EmptyString
  | String x0 (String x1 (String x2 (String x3 rest))) =>
      match dec64 x0, dec64 x1 with
      | Some d0, Some d1 =>
          let b0 := ascii_of_N (d0 * 4 + d1 / 16) in
          if Ascii.eqb x2 "=" then
            if Ascii.eqb x3 "=" && string_is_empty rest
            then Some (String b0 "") else None
          else
            match dec64 x2 with
            | Some d2 =>
                let b1 := ascii_of_N ((d1 mod 16) * 16 + d2 / 4) in
                if Ascii.eqb x3 "=" then
                  if string_is_empty rest
                  then Some (String b0 (String b1 "")) else None
                else
                  match dec64 x3 with
                  | Some d3 =>
                      let b2 := ascii_of_N ((d2 mod 4) * 64 + d3) in
                      option_map
                        (fun t => String b0 (String b1 (String b2 t)))
                        (base64_decode rest)
                  | None => None
                  end
            | None => None
            end
      | _, _ => None
      end
  | _ => None
  end.

(** ** A base executor that waits *)

(** The executor of the timeout tests: it answers after [delay], or gives
    up with the error of the request's context when that ends first. *)
Definition waiting_base (delay : Z) : DoerFunc :=
  fun r w =>
    match requests w !! r with
    | None => (Panics nilDeref, w)
    | Some req =>
        let ready := now w + delay in
        let answer :=
          (Returns (Some (mkResponse 200 (Some (nopBody "Some stubbed stuff."))))
                   None, set_now ready w) in
        match ctx_event (cancels w) (Request_Context req) with
        | Some (t, e) =>
            if t <=? ready
            then (Returns None (Some e), set_now (Z.max (now w) t) w)
            else answer
        | None => answer
        end
    end.
(** * Properties *)

(** ** Chain composition *)

Lemma applyMiddlewares_loop_app (pre suf : list MiddlewareFunc) chain :
  applyMiddlewares_loop (pre ++ suf) (length pre) chain
  = foldr wrap_with chain pre.
Proof.
  revert suf chain. induction pre as [|m pre IH] using rev_ind; intros suf chain.
  - reflexivity.
  - rewrite length_app, Nat.add_comm. cbn [length Nat.add applyMiddlewares_loop].
    rewrite <- app_assoc. cbn [app].
    rewrite IH, foldr_app. cbn [foldr].
    rewrite list_lookup_middle by reflexivity.
    destruct m; reflexivity.
Qed.

Lemma applyMiddlewares_foldr do (mws : list MiddlewareFunc) :
  applyMiddlewares do mws = foldr wrap_with do mws.
Proof.
  unfold applyMiddlewares.
  rewrite <- (app_nil_r mws) at 1. apply applyMiddlewares_loop_app.
Qed.

Lemma applyMiddlewares_cons do m (mws : list MiddlewareFunc) :
  applyMiddlewares do (m :: mws) = wrap_with m (applyMiddlewares do mws).
Proof. rewrite !applyMiddlewares_foldr. reflexivity. Qed.

Lemma applyMiddlewares_app do (l1 l2 : list MiddlewareFunc) :
  applyMiddlewares do (l1 ++ l2)
  = applyMiddlewares (applyMiddlewares do l2) l1.
Proof. rewrite !applyMiddlewares_foldr. apply foldr_app. Qed.

(** *** Facts about [slices.Concat] *)

Lemma slice_elems_length h s : (length (slice_elems h s) <= slice_len s)%nat.
Proof.
  unfold slice_elems. destruct (slice_array s) as [a|]; cbn; [|lia].
  destruct (arrays h !! a); cbn; [|lia].
  rewrite length_take. lia.
Qed.

Lemma slices_Concat_frame ss h s' h' :
  slices_Concat ss h = (s', h') ->
  clients h' = clients h /\ roundTrippers h' = roundTrippers h /\
  (forall a l, arrays h !! a = Some l -> arrays h' !! a = Some l).
Proof.
  unfold slices_Concat.
  destruct (foldr _ _ ss); intros [= <- <-]; cbn; [done|].
  repeat split. intros a l Ha.
  rewrite lookup_insert_ne; [done|]. intros <-.
  apply (is_fresh (dom (arrays h))), elem_of_dom. eauto.
Qed.

Lemma slices_Concat_keeps ss h s' h' s :
  slices_Concat ss h = (s', h') -> slice_wf h s ->
  slice_elems h' s = slice_elems h s.
Proof.
  intros Hc Hwf. destruct (slices_Concat_frame _ _ _ _ Hc) as (_ & _ & Hfr).
  unfold slice_elems, slice_wf in *.
  destruct (slice_array s) as [a|]; [|done].
  destruct Hwf as [l Hl]. by rewrite (Hfr _ _ Hl), Hl.
Qed.

Lemma slice_elems_nil_of_len0 h s : slice_len s = 0%nat -> slice_elems h s = [].
Proof.
  intros H0. pose proof (slice_elems_length h s) as Hle. rewrite H0 in Hle.
  destruct (slice_elems h s); [done | cbn in Hle; lia].
Qed.

Lemma slices_Concat_elems s1 s2 h s' h' :
  slices_Concat [s1; s2] h = (s', h') ->
  slice_elems h' s' = slice_elems h s1 ++ slice_elems h s2.
Proof.
  unfold slices_Concat. cbn [foldr map concat].
  destruct (slice_len s1 + (slice_len s2 + 0))%nat eqn:Hsz; intros [= <- <-].
  - rewrite !slice_elems_nil_of_len0 by (cbn; lia). done.
  - unfold slice_elems at 1. cbn. rewrite lookup_insert_eq. cbn.
    rewrite app_nil_r, drop_0. by rewrite firstn_all.
Qed.

(** C9: composing a base executor with the empty list of middlewares gives
    the base executor itself. *)
Theorem applyMiddlewares_nil (base : DoerFunc) :
  applyMiddlewares base [] = base.
Proof. reflexivity. Qed.

(** C1: for every base executor and every list of middlewares, the composed
    executor runs the before-logic of the middlewares in list order (the
    first of the list first), then the base executor, then the after-logic
    in reverse order (the first of the list last). *)
Theorem applyMiddlewares_order (base : DoerFunc)
    (l : list ((positive -> World -> World) * (positive -> World -> World)))
    (r : positive) (w : World) :
  applyMiddlewares base (map (fun ba => around (fst ba) (snd ba)) l) r w
  = match base r (before_all l r w) with
    | (Returns resp err, w') => (Returns resp err, after_all l r w')
    | (Panics v, w') => (Panics v, w')
    end.
Proof.
  revert w. induction l as [|[b a] l IH]; intros w.
  - cbn. destruct (base r w) as [[resp err|v] w']; reflexivity.
  - cbn [map]. rewrite applyMiddlewares_cons. cbn [fst snd wrap_with around].
    rewrite IH. unfold before_all, after_all. cbn [foldl foldr fst snd].
    destruct (base r _) as [[resp err|v] w']; reflexivity.
Qed.

Example order_A_B_C :
  stdout (snd (applyMiddlewares recording_base
                 [printing "A"; printing "B"; printing "C"] 1%positive
                 empty_world))
  = ["A in"; "B in"; "C in"; "base"; "C out"; "B out"; "A out"].
Proof. reflexivity. Qed.

(** ** Absent middlewares *)

Lemma applyMiddlewares_skip_nil base (l1 l2 : list MiddlewareFunc) :
  applyMiddlewares base (l1 ++ None :: l2) = applyMiddlewares base (l1 ++ l2).
Proof.
  rewrite !applyMiddlewares_app, applyMiddlewares_cons. reflexivity.
Qed.

(** C4: every vacuous configuration ([SetHeader] with the empty key,
    [Timeout] with a duration that is not positive, [AuthorizationBearer]
    with the empty token) yields the nil middleware, not an error, and a
    chain that holds it at any place is the chain without it: the other
    middlewares keep their order. *)
Theorem vacuous_middleware_elided (canon : string -> string)
    (v : string) (d : Z) (m : MiddlewareFunc)
    (base : DoerFunc) (l1 l2 : list MiddlewareFunc) :
  d <= 0 ->
  m = SetHeader canon "" v \/ m = Timeout d \/ m = AuthorizationBearer canon "" ->
  m = None /\
  applyMiddlewares base (l1 ++ m :: l2) = applyMiddlewares base (l1 ++ l2).
Proof.
  intros Hd Hm.
  assert (m = None) as ->.
  { destruct Hm as [->|[->| ->]]; [reflexivity| |reflexivity].
    unfold Timeout. destruct (Z.leb_spec d 0); [reflexivity|lia]. }
  split; [reflexivity | apply applyMiddlewares_skip_nil].
Qed.

Lemma vacuous_middleware_elided_witness :
  Timeout 0 = None /\
  applyMiddlewares recording_base ([printing "A"] ++ Timeout 0 :: [printing "B"])
  = applyMiddlewares recording_base ([printing "A"] ++ [printing "B"]).
Proof.
  apply (vacuous_middleware_elided (fun k => k) "" 0 (Timeout 0)
           recording_base [printing "A"] [printing "B"]).
  - lia.
  - right. left. reflexivity.
Defined.

(** ** Derivation *)

Lemma Client_With_correct h c cl mws :
  clients h !! c = Some cl ->
  slice_wf h (Client_middlewares cl) ->
  Client_derived h c cl mws.
Proof.
  intros Hc Hwf. unfold Client_derived, Client_With. rewrite Hc.
  destruct (slices_Concat [Client_middlewares cl; mws] h) as [all h1] eqn:Hcat.
  destruct (slices_Concat_frame _ _ _ _ Hcat) as (Hcl & _ & _).
  pose proof (slices_Concat_elems _ _ _ _ _ Hcat) as Hall.
  pose proof (slices_Concat_keeps _ _ _ _ _ Hcat Hwf) as Hkeep.
  assert (fresh (dom (clients h1)) <> c) as Hne.
  { intros Heq. apply (is_fresh (dom (clients h1))).
    rewrite Heq, Hcl. apply elem_of_dom. eauto. }
  unfold NewClient. eexists _, _, _. split; [reflexivity|].
  cbn [clients Client_base Client_chain Client_middlewares].
  split; [exact Hne|]. split; [apply lookup_insert_eq|].
  cbn [Client_base Client_chain Client_middlewares].
  split; [reflexivity|]. split; [exact Hall|].
  split; [by rewrite Hall|].
  assert (<[fresh (dom (clients h1)) :=
             mkClient (Client_base cl)
               (DoerFunc_as_Doer
                  (applyMiddlewares (Do (Client_base cl)) (slice_elems h1 all)))
               all]> (clients h1) !! c = Some cl) as Hparent.
  { rewrite lookup_insert_ne by exact Hne. by rewrite Hcl. }
  split; [exact Hparent|]. split; [exact Hkeep|].
  unfold Client_Do. cbn [clients]. by rewrite Hparent, Hc.
Qed.

Lemma RoundTripper_With_correct h t tr mws :
  roundTrippers h !! t = Some tr ->
  slice_wf h (RoundTripper_middlewares tr) ->
  RoundTripper_derived h t tr mws.
Proof.
  intros Ht Hwf. unfold RoundTripper_derived, RoundTripper_With. rewrite Ht.
  destruct (slices_Concat [RoundTripper_middlewares tr; mws] h)
    as [all h1] eqn:Hcat.
  destruct (slices_Concat_frame _ _ _ _ Hcat) as (_ & Hrt & _).
  pose proof (slices_Concat_elems _ _ _ _ _ Hcat) as Hall.
  pose proof (slices_Concat_keeps _ _ _ _ _ Hcat Hwf) as Hkeep.
  assert (fresh (dom (roundTrippers h1)) <> t) as Hne.
  { intros Heq. apply (is_fresh (dom (roundTrippers h1))).
    rewrite Heq, Hrt. apply elem_of_dom. eauto. }
  unfold NewRoundTripper. eexists _, _, _. split; [reflexivity|].
  cbn [roundTrippers].
  split; [exact Hne|]. split; [apply lookup_insert_eq|].
  cbn [RoundTripper_base RoundTripper_chain RoundTripper_middlewares].
  split; [reflexivity|]. split; [exact Hall|].
  split; [by rewrite Hall|].
  assert (<[fresh (dom (roundTrippers h1)) :=
             mkRoundTripper (RoundTripper_base tr)
               (applyMiddlewares (RoundTrip (RoundTripper_base tr))
                  (slice_elems h1 all))
               all]> (roundTrippers h1) !! t = Some tr) as Hparent.
  { rewrite lookup_insert_ne by exact Hne. by rewrite Hrt. }
  split; [exact Hparent|]. split; [exact Hkeep|].
  unfold RoundTripper_RoundTrip. cbn [roundTrippers]. by rewrite Hparent, Ht.
Qed.

(** C2: for a wrapper (client or round tripper) with base B and middlewares
    (p1..pn), [With(n1..nk)] returns a new wrapper whose chain is the
    composition of (p1..pn, n1..nk) around the same B; the parent's base,
    middlewares and chain are unchanged, and so is what the parent does when
    it is invoked afterwards. *)
Theorem With_derives_and_preserves (h : Heap) (mws : slice) :
  (forall c cl,
     clients h !! c = Some cl -> slice_wf h (Client_middlewares cl) ->
     Client_derived h c cl mws) /\
  (forall t tr,
     roundTrippers h !! t = Some tr ->
     slice_wf h (RoundTripper_middlewares tr) ->
     RoundTripper_derived h t tr mws).
Proof.
  split.
  - intros c cl. apply Client_With_correct.
  - intros t tr. apply RoundTripper_With_correct.
Qed.

Lemma With_derives_and_preserves_witness :
  Client_derived sample_heap 1%positive sample_client sample_new_mws /\
  RoundTripper_derived sample_heap 1%positive sample_roundTripper
    sample_new_mws.
Proof.
  destruct (With_derives_and_preserves sample_heap sample_new_mws) as [Hc Ht].
  split.
  - apply Hc; [reflexivity | cbn; eauto].
  - apply Ht; [reflexivity | cbn; eauto].
Defined.

(** ** Recover *)

Lemma errors_Is_PanicError v stack :
  errors_Is (PanicErrorPtr v stack) ErrPanicRecovered = true.
Proof.
  reflexivity.
Qed.

(** C5: around any executor, [Recover] turns a panic with payload [v] into
    an error that [errors.Is] matches with [ErrPanicRecovered], whose
    [Recovered] field is [v] and whose [Stack] field is not empty; a normal
    return, with an error or without one, is passed on as it is. *)
Theorem Recover_converts_panics_only (debug_Stack : World -> string)
    (next : DoerFunc) (r : positive) (w : World) :
  (forall w', debug_Stack w' <> "") ->
  exists mw,
    Recover debug_Stack = Some mw /\
    match next r w with
    | (Panics v, w') =>
        exists stack,
          mw next r w = (Returns None (Some (PanicErrorPtr v stack)), w') /\
          errors_Is (PanicErrorPtr v stack) ErrPanicRecovered = true /\
          stack <> ""
    | (Returns resp err, w') => mw next r w = (Returns resp err, w')
    end.
Proof.
  intros Hstack. eexists. split; [reflexivity|].
  destruct (next r w) as [[resp err|v] w'] eqn:Hn; cbn [Recover].
  - rewrite Hn. reflexivity.
  - exists (debug_Stack w'). rewrite Hn.
    split; [reflexivity|]. split; [apply errors_Is_PanicError | apply Hstack].
Qed.

Lemma Recover_converts_panics_only_witness :
  exists mw,
    Recover sample_stack = Some mw /\
    exists stack,
      mw panicking_base 1%positive empty_world
      = (Returns None (Some (PanicErrorPtr (AnyString "boom") stack)),
         empty_world) /\
      errors_Is (PanicErrorPtr (AnyString "boom") stack) ErrPanicRecovered
      = true /\
      stack <> "".
Proof.
  apply (Recover_converts_panics_only sample_stack panicking_base 1%positive
           empty_world).
  intros w'. discriminate.
Defined.

(** ** Secure *)

(** C6: when the scheme of the request URL is not "https", [Secure] fails
    with [ErrInsecureScheme] whatever the wrapped executor is, and leaves
    the world as it was: the wrapped executor is not invoked.  When the
    scheme is "https" the call is the wrapped executor's, on the same
    request and the same world. *)
Theorem Secure_enforces_https (next : DoerFunc) (r : positive) (w : World)
    (req : Request) (u : URL) :
  request_url w r = Some (req, u) ->
  exists mw,
    Secure = Some mw /\
    mw next r w
    = if String.eqb (Scheme u) "https" then next r w
      else (Returns None (Some ErrInsecureScheme), w).
Proof.
  intros Hu. eexists. split; [reflexivity|]. cbn. rewrite Hu.
  destruct (String.eqb (Scheme u) "https"); reflexivity.
Qed.

Lemma Secure_enforces_https_witness :
  exists mw,
    Secure = Some mw /\
    mw recording_base 1%positive (sample_world (sample_url "http" "/"))
    = (Returns None (Some ErrInsecureScheme),
       sample_world (sample_url "http" "/")).
Proof.
  apply (Secure_enforces_https recording_base 1%positive
           (sample_world (sample_url "http" "/"))
           (mkRequest "GET" (Some 1%positive) (Some 1%positive) None)
           (sample_url "http" "/")).
  reflexivity.
Defined.

(** ** SetHeader *)

(** C8: [SetHeader(k, v)] is nil exactly when [k] is empty, whatever [v] is.
    Otherwise it is installed, also for an empty [v], and on a request it
    forwards with header [k] holding the single value [v]: what the header
    held before is replaced, not extended, and the other headers are kept. *)
Theorem SetHeader_asymmetry (canon : string -> string) (k v : string)
    (next : DoerFunc) (r : positive) (w : World) (req : Request)
    (a : positive) (h : gmap string (list string)) :
  requests w !! r = Some req ->
  req_Header req = Some a ->
  headers w !! a = Some h ->
  SetHeader canon "" v = None /\
  match SetHeader canon k v with
  | None => k = ""
  | Some mw =>
      k <> "" /\
      mw next r w
      = next r (set_headers (insert a (Header_Set canon h k v)) w) /\
      Header_Values canon (Header_Set canon h k v) k = [v] /\
      Header_Get canon (Header_Set canon h k v) k = v /\
      forall k', canon k' <> canon k ->
        Header_Values canon (Header_Set canon h k v) k'
        = Header_Values canon h k'
  end.
Proof.
  intros Hr Ha Hh. split; [reflexivity|].
  unfold SetHeader. destruct (String.eqb_spec k "") as [->|Hk]; [reflexivity|].
  split; [exact Hk|]. rewrite Hr, Ha, Hh.
  unfold Header_Values, Header_Get, Header_Set.
  rewrite lookup_insert_eq. repeat split; try reflexivity.
  intros k' Hne. rewrite lookup_insert_ne by congruence. reflexivity.
Qed.

Lemma SetHeader_asymmetry_witness :
  SetHeader (fun k => k) "" "" = None /\
  match SetHeader (fun k => k) "X-Foo" "" with
  | None => "X-Foo" = ""
  | Some mw =>
      "X-Foo" <> "" /\
      mw recording_base 1%positive (sample_world (sample_url "https" "/"))
      = recording_base 1%positive
          (set_headers
             (insert 1%positive
                (Header_Set (fun k => k) {[ "X-Foo" := ["old"; "older"] ]}
                   "X-Foo" ""))
             (sample_world (sample_url "https" "/"))) /\
      Header_Values (fun k => k)
        (Header_Set (fun k => k) {[ "X-Foo" := ["old"; "older"] ]} "X-Foo" "")
        "X-Foo" = [""] /\
      Header_Get (fun k => k)
        (Header_Set (fun k => k) {[ "X-Foo" := ["old"; "older"] ]} "X-Foo" "")
        "X-Foo" = "" /\
      forall k', k' <> "X-Foo" ->
        Header_Values (fun k => k)
          (Header_Set (fun k => k) {[ "X-Foo" := ["old"; "older"] ]} "X-Foo" "")
          k'
        = Header_Values (fun k => k) {[ "X-Foo" := ["old"; "older"] ]} k'
  end.
Proof.
  apply (SetHeader_asymmetry (fun k => k) "X-Foo" "" recording_base 1%positive
           (sample_world (sample_url "https" "/"))
           (mkRequest "GET" (Some 1%positive) (Some 1%positive) None)
           1%positive {[ "X-Foo" := ["old"; "older"] ]});
    reflexivity.
Defined.

(** ** Timeout *)

Lemma ctx_event_insert_other cs c id v :
  id ∉ ctx_ids c -> ctx_event (<[id := v]> cs) c = ctx_event cs c.
Proof.
  induction c as [|parent IH id' deadline]; intros Hid; [reflexivity|].
  cbn [ctx_ids] in Hid. cbn [ctx_event].
  rewrite lookup_insert_ne by set_solver. rewrite IH by set_solver.
  reflexivity.
Qed.

Lemma cancel_frame c id w :
  requests (cancel c id w) = requests w /\
  urls (cancel c id w) = urls w /\
  headers (cancel c id w) = headers w /\
  now (cancel c id w) = now w /\
  stdout (cancel c id w) = stdout w.
Proof. unfold cancel. destruct (ctx_Err w c); repeat split. Qed.

Lemma cancel_other_ctx c id w c' :
  id ∉ ctx_ids c' ->
  ctx_event (cancels (cancel c id w)) c' = ctx_event (cancels w) c'.
Proof.
  intros Hid. unfold cancel. destruct (ctx_Err w c); [reflexivity|].
  cbn [cancels set_cancels]. by apply ctx_event_insert_other.
Qed.

(** C10: for a positive [d], [Timeout(d)] does not write to the caller's
    request.  It forwards a copy, stored at a new address, that differs from
    the request only in its context; the request is still what it was in
    the world [next] receives, the deferred [cancel] changes nothing but the
    cancellation state of the new context, and the context the request came
    with ends when it would have ended anyway.  So when [next] leaves the
    request alone, it is after the call what it was before. *)
Theorem Timeout_forwards_copy (d : Z) (next : DoerFunc) (r : positive)
    (w : World) (req : Request) :
  0 < d ->
  requests w !! r = Some req ->
  ctx_wf w (Request_Context req) ->
  let id := fresh (dom (cancels w)) in
  let ctx := timerCtx (Request_Context req) id (now w + d) in
  let r2 := fresh (dom (requests w)) in
  let w2 := set_requests (insert r2 (Request_WithContext req ctx))
              (set_cancels (insert id None) w) in
  exists mw,
    Timeout d = Some mw /\
    mw next r w = (fst (next r2 w2), cancel ctx id (snd (next r2 w2))) /\
    r2 <> r /\
    requests w2 !! r = Some req /\
    ctx_event (cancels w2) (Request_Context req)
    = ctx_event (cancels w) (Request_Context req) /\
    (forall w3,
       requests (cancel ctx id w3) = requests w3 /\
       ctx_event (cancels (cancel ctx id w3)) (Request_Context req)
       = ctx_event (cancels w3) (Request_Context req)) /\
    (requests (snd (next r2 w2)) !! r = Some req ->
     requests (snd (mw next r w)) !! r = Some req).
Proof.
  intros Hd Hr Hwf id ctx r2 w2.
  assert (id ∉ ctx_ids (Request_Context req)) as Hid.
  { intros Hin. apply (is_fresh (dom (cancels w))). by apply Hwf. }
  assert (r2 <> r) as Hne.
  { intros Heq. apply (is_fresh (dom (requests w))).
    fold r2. rewrite Heq. apply elem_of_dom. eauto. }
  unfold Timeout. destruct (Z.leb_spec d 0) as [?|_]; [lia|].
  eexists. split; [reflexivity|]. cbn beta. rewrite Hr.
  unfold context_WithTimeout. fold id. fold ctx.
  change (fresh (dom (requests (set_cancels (insert id None) w)))) with r2.
  fold w2. destruct (next r2 w2) as [out w3] eqn:Hn. cbn [fst snd].
  split; [reflexivity|]. split; [exact Hne|].
  split; [cbn; by rewrite lookup_insert_ne|].
  split; [cbn; by apply ctx_event_insert_other|].
  split.
  - intros w'. split; [apply cancel_frame | by apply cancel_other_ctx].
  - intros Hkeep. by rewrite (proj1 (cancel_frame ctx id w3)).
Qed.

Lemma Timeout_forwards_copy_witness :
  exists mw,
    Timeout 5 = Some mw /\
    mw recording_base 1%positive (sample_world (sample_url "https" "/"))
    = (fst (recording_base 2%positive
              (set_requests
                 (insert 2%positive
                    (Request_WithContext
                       (mkRequest "GET" (Some 1%positive) (Some 1%positive) None)
                       (timerCtx backgroundCtx 1%positive 5)))
                 (set_cancels (insert 1%positive None)
                    (sample_world (sample_url "https" "/"))))),
       cancel (timerCtx backgroundCtx 1%positive 5) 1%positive
         (snd (recording_base 2%positive
                 (set_requests
                    (insert 2%positive
                       (Request_WithContext
                          (mkRequest "GET" (Some 1%positive) (Some 1%positive)
                             None)
                          (timerCtx backgroundCtx 1%positive 5)))
                    (set_cancels (insert 1%positive None)
                       (sample_world (sample_url "https" "/"))))))) /\
    requests (snd (mw recording_base 1%positive
                     (sample_world (sample_url "https" "/")))) !! 1%positive
    = Some (mkRequest "GET" (Some 1%positive) (Some 1%positive) None).
Proof.
  destruct (Timeout_forwards_copy 5 recording_base 1%positive
              (sample_world (sample_url "https" "/"))
              (mkRequest "GET" (Some 1%positive) (Some 1%positive) None))
    as (mw & Hmw & Hrun & _ & _ & _ & _ & Hkeep).
  - lia.
  - reflexivity.
  - intros x Hx. cbn in Hx. set_solver.
  - exists mw. split; [exact Hmw|]. split; [exact Hrun|].
    apply Hkeep. reflexivity.
Defined.

(** C3: what the code does where the claim expects the deadline to be
    observed.  When the base executor, wrapped by [Timeout(d)] for a positive
    [d], returns a response within the deadline, the deferred [cancel] ends
    the attached context as the chain returns.  A read of the body that
    watches this context, made after the chain has returned, fails at once
    with [Canceled], which [errors.Is] does not match with
    [DeadlineExceeded]; it does not wait for [d] to elapse. *)
Theorem Timeout_cancels_before_body_read (d : Z) (base : DoerFunc)
    (r : positive) (w : World) (req : Request) (resp : Response) (w3 : World)
    (delay : Z) (data : string) :
  0 < d ->
  requests w !! r = Some req ->
  Request_Context req = backgroundCtx ->
  let id := fresh (dom (cancels w)) in
  let ctx := timerCtx backgroundCtx id (now w + d) in
  let r2 := fresh (dom (requests w)) in
  let w2 := set_requests (insert r2 (Request_WithContext req ctx))
              (set_cancels (insert id None) w) in
  base r2 w2 = (Returns (Some resp) None, w3) ->
  Body resp = Some (ctxBody ctx delay data) ->
  now w3 < now w + d ->
  cancels w3 !! id = Some None ->
  0 <= delay ->
  exists mw w4,
    Timeout d = Some mw /\
    mw base r w = (Returns (Some resp) None, w4) /\
    now w4 = now w3 /\
    ReadAll (ctxBody ctx delay data) w4 = ("", Some Canceled, w4) /\
    errors_Is Canceled DeadlineExceeded = false.
Proof.
  intros Hd Hr Hbg id ctx r2 w2 Hbase Hbody Hin Hnc Hdelay.
  unfold Timeout. destruct (Z.leb_spec d 0) as [?|_]; [lia|].
  eexists _, _. split; [reflexivity|]. cbn beta. rewrite Hr.
  unfold context_WithTimeout. rewrite Hbg. fold id. fold ctx.
  change (fresh (dom (requests (set_cancels (insert id None) w)))) with r2.
  fold w2. rewrite Hbase.
  assert (ctx_Err w3 ctx = None) as Herr.
  { unfold ctx_Err, ctx. cbn [ctx_event]. rewrite Hnc. cbn [fst].
    destruct (Z.leb_spec (now w + d) (now w3)); [lia|reflexivity]. }
  unfold cancel. rewrite Herr.
  split; [reflexivity|]. split; [reflexivity|]. split; [|reflexivity].
  unfold ReadAll, ctx. cbn [ctx_event cancels set_cancels now].
  rewrite lookup_insert_eq.
  destruct (Z.ltb_spec (now w3) (now w + d)); [|lia].
  destruct (Z.leb_spec (now w3) (now w3 + delay)); [|lia].
  rewrite Z.max_id. destruct w3; reflexivity.
Qed.

(** The case the tests call "delayed body read exceeding timeout": a
    timeout of ten seconds, a body that takes fifteen. *)
Lemma Timeout_cancels_before_body_read_witness :
  exists mw w4,
    Timeout 10000000000 = Some mw /\
    mw (delayed_body_base 15000000000) 1%positive
       (sample_world (sample_url "http" "/"))
    = (Returns
         (Some (mkResponse 200
                  (Some (ctxBody (timerCtx backgroundCtx 1%positive 10000000000)
                           15000000000 "Some stubbed stuff."))))
         None, w4) /\
    now w4 = 0 /\
    ReadAll (ctxBody (timerCtx backgroundCtx 1%positive 10000000000)
               15000000000 "Some stubbed stuff.") w4
    = ("", Some Canceled, w4) /\
    errors_Is Canceled DeadlineExceeded = false.
Proof.
  apply (Timeout_cancels_before_body_read 10000000000
           (delayed_body_base 15000000000) 1%positive
           (sample_world (sample_url "http" "/"))
           (mkRequest "GET" (Some 1%positive) (Some 1%positive) None)
           (mkResponse 200
              (Some (ctxBody (timerCtx backgroundCtx 1%positive 10000000000)
                       15000000000 "Some stubbed stuff.")))
           (set_requests
              (insert 2%positive
                 (Request_WithContext
                    (mkRequest "GET" (Some 1%positive) (Some 1%positive) None)
                    (timerCtx backgroundCtx 1%positive 10000000000)))
              (set_cancels (insert 1%positive None)
                 (sample_world (sample_url "http" "/"))))
           15000000000 "Some stubbed stuff.");
    try reflexivity; try lia.
  all: cbn; lia.
Defined.

(** The sibling case "delayed body read within timeout" (three seconds under
    a timeout of ten) fails in the same way, and a read under a context that
    nobody cancels would have succeeded. *)
Example delayed_body_within_timeout :
  let '(_, w4) := wrap_with (Timeout 10000000000)
                    (delayed_body_base 3000000000) 1%positive
                    (sample_world (sample_url "http" "/")) in
  fst (ReadAll (ctxBody (timerCtx backgroundCtx 1%positive 10000000000)
                  3000000000 "Some stubbed stuff.") w4)
  = ("", Some Canceled)
  /\ fst (ReadAll (ctxBody (timerCtx backgroundCtx 1%positive 10000000000)
                     3000000000 "Some stubbed stuff.")
            (set_cancels (insert 1%positive None) w4))
     = ("Some stubbed stuff.", None)
  /\ fst (ReadAll (ctxBody (timerCtx backgroundCtx 1%positive 10000000000)
                     15000000000 "Some stubbed stuff.")
            (set_cancels (insert 1%positive None) w4))
     = ("", Some DeadlineExceeded).
Proof. vm_compute. repeat split. Qed.

(** ** StripSlashes *)

(** The cases of the tests and of the specification. *)
Example strip_slashes_examples :
  seen_paths false "///v1//foo/" = ["/v1/foo/"] /\
  seen_paths true "///v1//foo/" = ["/v1/foo"] /\
  seen_paths true "///v1//foo///" = ["/v1/foo"] /\
  seen_paths true "/" = ["/"] /\
  seen_paths false "/v1/foo" = ["/v1/foo"] /\
  spec_strip_path false "///v1//foo/" = "/v1/foo/" /\
  spec_strip_path true "///v1//foo/" = "/v1/foo" /\
  spec_strip_path true "/" = "/".
Proof. vm_compute. repeat split. Qed.

(** Paths on which the code does more than the description says. *)
Example strip_slashes_dot_segments :
  seen_paths false "/a/../b" = ["/b"] /\
  spec_strip_path false "/a/../b" = "/a/../b" /\
  seen_paths false "/a/./b" = ["/a/b"] /\
  seen_paths false "" = ["/"] /\
  spec_strip_path false "" = "".
Proof. vm_compute. repeat split. Qed.

Lemma path_spy_run r w req u :
  request_url w r = Some (req, u) ->
  path_spy r w = (Returns (Some (mkResponse 200 None)) None, fmt_Print (Path u) w).
Proof.
  unfold request_url, path_spy.
  destruct (requests w !! r) as [req0|]; [|discriminate].
  destruct (req_URL req0) as [a|]; [|discriminate].
  destruct (urls w !! a) as [u0|]; [|discriminate].
  intros [= _ <-]. reflexivity.
Qed.

Lemma seen_paths_dotdot : seen_paths false "/a/../b" = ["/b"].
Proof. vm_compute. reflexivity. Qed.

(** C7, as stated, fails: for the path [/a/../b] the description gives
    [/a/../b] (there is no run of separators to collapse), and the wrapped
    executor sees [/b]. *)
Lemma StripSlashes_as_described_fails : ~ StripSlashes_as_described.
Proof.
  intros H.
  destruct (H false path_spy 1%positive
              (sample_world (sample_url "http" "/a/../b"))
              (mkRequest "GET" (Some 1%positive) (Some 1%positive) None)
              (sample_url "http" "/a/../b") eq_refl)
    as (w' & req' & u' & Hrun & Hu' & Hpath & _).
  rewrite (path_spy_run _ _ _ _ Hu') in Hrun.
  apply (f_equal (fun x => stdout (snd x))) in Hrun.
  change (seen_paths false "/a/../b" = stdout (fmt_Print (Path u') w')) in Hrun.
  rewrite seen_paths_dotdot in Hrun. cbn [stdout fmt_Print] in Hrun.
  apply (app_inj_tail [] (stdout w')) in Hrun. destruct Hrun as [_ Hp].
  rewrite Hpath in Hp. vm_compute in Hp. discriminate.
Qed.

(** *** Strings *)

Lemma string_app_cons x (a b : string) : String x a +:+ b = String x (a +:+ b).
Proof. reflexivity. Qed.

Lemma string_app_nil_l (a : string) : "" +:+ a = a.
Proof. reflexivity. Qed.

Lemma string_app_assoc (a b c : string) : (a +:+ b) +:+ c = a +:+ (b +:+ c).
Proof.
  induction a as [|x a IH]; [reflexivity|].
  rewrite !string_app_cons. by rewrite IH.
Qed.

Lemma string_app_nil_r (a : string) : a +:+ "" = a.
Proof.
  induction a as [|x a IH]; [reflexivity|].
  rewrite string_app_cons. by rewrite IH.
Qed.

Lemma string_of_rev_acc out acc :
  string_of_rev out acc = string_of_rev out "" +:+ acc.
Proof.
  revert acc. induction out as [|c out IH]; intros acc; [reflexivity|].
  cbn [string_of_rev]. rewrite IH, (IH (String c "")), string_app_assoc.
  reflexivity.
Qed.

Lemma strings_HasSuffix_slash s : strings_HasSuffix s "/" = last_is_slash s.
Proof.
  unfold strings_HasSuffix. induction s as [|c s IH]; [reflexivity|].
  destruct s as [|c' s'].
  - cbn. unfold slash. destruct (Ascii.eqb c "/"); reflexivity.
  - change (last_is_slash (String c (String c' s')))
      with (last_is_slash (String c' s')).
    rewrite <- IH. cbn. rewrite Nat.sub_0_r. reflexivity.
Qed.

Lemma last_is_slash_snoc s c :
  last_is_slash (s +:+ String c "") = Ascii.eqb c slash.
Proof.
  induction s as [|x s IH]; [reflexivity|].
  rewrite string_app_cons. cbn [last_is_slash]. rewrite IH.
  destruct s; reflexivity.
Qed.

Lemma string_length_snoc s c :
  String.length (s +:+ String c "") = S (String.length s).
Proof.
  induction s as [|x s IH]; [reflexivity|].
  rewrite string_app_cons. cbn [String.length]. by rewrite IH.
Qed.

Lemma substring_all_but_last s c :
  substring 0 (String.length (s +:+ String c "") - 1) (s +:+ String c "") = s.
Proof.
  induction s as [|x s IH]; [reflexivity|].
  rewrite string_app_cons. cbn [String.length].
  replace (S (String.length (s +:+ String c "")) - 1)%nat
    with (S (String.length (s +:+ String c "") - 1))%nat.
  - cbn [substring]. by rewrite IH.
  - rewrite string_length_snoc. lia.
Qed.

Lemma strings_TrimSuffix_snoc s :
  strings_TrimSuffix (s +:+ "/") "/" = s.
Proof.
  unfold strings_TrimSuffix.
  rewrite strings_HasSuffix_slash, last_is_slash_snoc.
  cbn [String.length]. apply substring_all_but_last.
Qed.

Lemma clean_loop_plain c rest out dd :
  Ascii.eqb c slash = false ->
  is_dot_elem (String c rest) = false ->
  is_dotdot_elem (String c rest) = false ->
  clean_loop true (String c rest) out dd false
  = clean_loop true rest
      (c :: (if negb (length out =? 1)%nat then slash :: out else out)) dd true.
Proof.
  intros Hc Hdot Hdd. cbn [clean_loop]. rewrite Hc.
  cbn [andb negb orb]. rewrite orb_false_r.
  destruct (Ascii.eqb c dot) eqn:Hd; [|reflexivity].
  destruct rest as [|c1 rest1].
  { cbn in Hdot. rewrite Hd in Hdot. discriminate. }
  cbn in Hdot. rewrite Hd in Hdot. cbn in Hdot. rewrite Hdot.
  cbn in Hdd. rewrite Hd in Hdd. cbn [andb] in Hdd.
  destruct (Ascii.eqb c1 dot); [|reflexivity].
  cbn [andb] in Hdd |- *. rewrite Hdd. reflexivity.
Qed.

Lemma clean_loop_dotfree inp :
  forall out copying,
    tidy out copying ->
    dotfree (negb copying) inp = true ->
    tidy (clean_loop true inp out 1 copying) (end_mode inp copying) /\
    finish (clean_loop true inp out 1 copying) (end_mode inp copying)
    = finish out copying +:+ collapse_aux (negb copying) inp.
Proof.
  induction inp as [|c rest IH]; intros out copying Htidy Hfree.
  { cbn. split; [exact Htidy | by rewrite string_app_nil_r]. }
  cbn [end_mode collapse_aux]. cbn [dotfree] in Hfree.
  destruct (Ascii.eqb c slash) eqn:Hc.
  - (* a separator *)
    assert (tidy out false /\
            finish out false
            = finish out copying +:+ (if negb copying then "" else "/"))
      as [Htidy' Hfin].
    { destruct copying.
      - destruct out as [|c0 [|c1 out]]; cbn in Htidy |- *;
          [done | destruct Htidy; discriminate |].
        split; [exact Htidy|]. unfold finish. cbn [orb length Nat.eqb].
        by rewrite string_app_nil_r.
      - split; [exact Htidy | by rewrite string_app_nil_r]. }
    assert (clean_loop true (String c rest) out 1 copying
            = clean_loop true rest out 1 false) as ->.
    { cbn [clean_loop]. rewrite Hc. by destruct copying. }
    destruct (IH out false Htidy' Hfree) as [Ht Hf].
    cbn [negb]. split; [exact Ht|]. rewrite Hf, Hfin.
    rewrite string_app_assoc.
    apply Ascii.eqb_eq in Hc. subst c. destruct copying; reflexivity.
  - (* a byte of an element *)
    apply andb_true_iff in Hfree as [Hstart Hfree].
    set (out1 := if copying then out
                 else if negb (length out =? 1)%nat then slash :: out else out).
    assert (clean_loop true (String c rest) out 1 copying
            = clean_loop true rest (c :: out1) 1 true) as ->.
    { destruct copying.
      - cbn [clean_loop]. by rewrite Hc.
      - cbn [negb orb] in Hstart. apply andb_true_iff in Hstart as [H1 H2].
        apply negb_true_iff in H1, H2. by apply clean_loop_plain. }
    assert (tidy (c :: out1) true /\
            finish (c :: out1) true = finish out copying +:+ String c "")
      as [Htidy' Hfin].
    { assert (c <> slash) as Hne
        by (intros ->; unfold slash in Hc; by rewrite Ascii.eqb_refl in Hc).
      unfold finish. cbn [orb string_of_rev].
      rewrite (string_of_rev_acc out1 (String c "")), !string_app_nil_r.
      subst out1. destruct copying.
      - destruct out as [|c0 out]; [done|]. split; [exact Hne|].
        cbn [orb]. by rewrite string_app_nil_r.
      - destruct out as [|c0 [|c1 out]]; [done| |].
        + destruct Htidy as [-> _]. cbn. split; [exact Hne | reflexivity].
        + cbn. split; [exact Hne|].
          rewrite (string_of_rev_acc out (String c1 (String c0 (String slash "")))),
            (string_of_rev_acc out (String c1 (String c0 ""))).
          rewrite !string_app_assoc. reflexivity. }
    destruct (IH (c :: out1) true Htidy' Hfree) as [Ht Hf].
    change (negb false) with true. split; [exact Ht|]. rewrite Hf, Hfin, string_app_assoc. reflexivity.
Qed.

Lemma last_is_slash_end_mode c rest :
  last_is_slash (String c rest) = negb (end_mode rest (negb (Ascii.eqb c slash))).
Proof.
  revert c. induction rest as [|c' rest IH]; intros c.
  - cbn. by rewrite negb_involutive.
  - change (last_is_slash (String c (String c' rest)))
      with (last_is_slash (String c' rest)).
    rewrite IH. reflexivity.
Qed.

Lemma tidy_last_is_slash out copying :
  tidy out copying ->
  last_is_slash (string_of_rev out "") = (length out =? 1)%nat.
Proof.
  destruct out as [|c [|c' out]]; cbn [tidy]; [done| |].
  - intros [-> _]. reflexivity.
  - intros Hne. cbn [length Nat.eqb].
    change (string_of_rev (c :: c' :: out) "")
      with (string_of_rev (c' :: out) (String c "")).
    rewrite (string_of_rev_acc (c' :: out) (String c "")), last_is_slash_snoc.
    destruct (Ascii.eqb_spec c slash); [done | reflexivity].
Qed.

(** [path.Clean], followed by the step of [JoinPath] that puts back a
    trailing separator, collapses the runs of separators of such a path. *)
Lemma path_Clean_collapses rest :
  dotfree true rest = true ->
  let p := String slash rest in
  let q := path_Clean p in
  (if strings_HasSuffix p "/" && negb (strings_HasSuffix q "/")
   then q +:+ "/" else q)
  = spec_collapse_slashes p.
Proof.
  intros Hfree p q.
  destruct (clean_loop_dotfree rest [slash] false) as [Ht Hf];
    [by split | exact Hfree |].
  assert (q = string_of_rev (clean_loop true rest [slash] 1 false) "") as Hq.
  { subst q p. unfold path_Clean, slash. rewrite Ascii.eqb_refl.
    fold slash. destruct (clean_loop true rest [slash] 1 false); [done|].
    reflexivity. }
  rewrite !strings_HasSuffix_slash, Hq, (tidy_last_is_slash _ _ Ht).
  subst p. rewrite last_is_slash_end_mode.
  unfold slash at 1. rewrite Ascii.eqb_refl. cbn [negb].
  unfold spec_collapse_slashes. cbn [collapse_aux].
  unfold slash at 3. rewrite Ascii.eqb_refl.
  change (String slash (collapse_aux true rest))
    with (finish [slash] false +:+ collapse_aux (negb false) rest).
  rewrite <- Hf. unfold finish.
  destruct (end_mode rest false), (length _ =? 1)%nat; cbn [negb andb orb];
    by rewrite ?string_app_nil_r.
Qed.

(** *** Escaping *)

Lemma hex_roundtrip c :
  ishex (upperhex (N.shiftr (N_of_ascii c) 4)) = true /\
  ishex (upperhex (N.land (N_of_ascii c) 15)) = true /\
  ascii_of_N (N.lor (N.shiftl (unhex (upperhex (N.shiftr (N_of_ascii c) 4))) 4)
                    (unhex (upperhex (N.land (N_of_ascii c) 15)))) = c /\
  Ascii.eqb (upperhex (N.shiftr (N_of_ascii c) 4)) slash = false /\
  Ascii.eqb (upperhex (N.land (N_of_ascii c) 15)) slash = false.
Proof.
  destruct c as [b0 b1 b2 b3 b4 b5 b6 b7].
  destruct b0, b1, b2, b3, b4, b5, b6, b7; vm_compute; repeat split.
Qed.

Lemma shouldEscape_not_percent c : shouldEscape c = false -> Ascii.eqb c "%" = false.
Proof.
  intros Hc. destruct (Ascii.eqb_spec c "%") as [->|]; [discriminate|reflexivity].
Qed.

Lemma shouldEscape_not_slash c : shouldEscape c = true -> Ascii.eqb c slash = false.
Proof.
  intros Hc. destruct (Ascii.eqb_spec c slash) as [->|]; [discriminate|reflexivity].
Qed.

Lemma shouldEscape_not_dot c : shouldEscape c = true -> Ascii.eqb c dot = false.
Proof.
  intros Hc. destruct (Ascii.eqb_spec c dot) as [->|]; [discriminate|reflexivity].
Qed.

Lemma escape_cons c s :
  escape (String c s)
  = if shouldEscape c
    then String "%" (String (upperhex (N.shiftr (N_of_ascii c) 4))
                       (String (upperhex (N.land (N_of_ascii c) 15)) (escape s)))
    else String c (escape s).
Proof. reflexivity. Qed.

Lemma unescape_escape s : unescape (escape s) = Some s.
Proof.
  induction s as [|c s IH]; [reflexivity|].
  rewrite escape_cons. destruct (shouldEscape c) eqn:Hc.
  - destruct (hex_roundtrip c) as (H1 & H2 & H3 & _).
    cbn [unescape]. rewrite Ascii.eqb_refl, H1, H2, H3, IH. reflexivity.
  - cbn [unescape]. rewrite (shouldEscape_not_percent c Hc), IH. reflexivity.
Qed.

Lemma collapse_escape b s :
  collapse_aux b (escape s) = escape (collapse_aux b s).
Proof.
  revert b. induction s as [|c s IH]; intros b; [reflexivity|].
  rewrite escape_cons. destruct (shouldEscape c) eqn:Hc.
  - destruct (hex_roundtrip c) as (_ & _ & _ & H4 & H5).
    cbn [collapse_aux]. rewrite (shouldEscape_not_slash c Hc), H4, H5.
    change (Ascii.eqb "%" slash) with false. cbn iota.
    rewrite escape_cons, Hc, IH. reflexivity.
  - cbn [collapse_aux]. destruct (Ascii.eqb c slash) eqn:Hs.
    + destruct b; rewrite ?escape_cons, ?Hc, IH; reflexivity.
    + rewrite escape_cons, Hc, IH. reflexivity.
Qed.

Lemma ends_elem_escape s : ends_elem (escape s) = ends_elem s.
Proof.
  destruct s as [|c s]; [reflexivity|]. rewrite escape_cons.
  destruct (shouldEscape c) eqn:Hc; [|reflexivity].
  cbn. by rewrite (shouldEscape_not_slash c Hc).
Qed.

Lemma is_dot_elem_escape c s :
  shouldEscape c = false ->
  is_dot_elem (String c (escape s)) = is_dot_elem (String c s).
Proof.
  intros _. change (Ascii.eqb c dot && ends_elem (escape s)
                    = Ascii.eqb c dot && ends_elem s).
  by rewrite ends_elem_escape.
Qed.

Lemma is_dotdot_elem_escape c s :
  shouldEscape c = false ->
  is_dotdot_elem (String c (escape s)) = is_dotdot_elem (String c s).
Proof.
  intros _. destruct s as [|c1 s1]; [reflexivity|]. rewrite escape_cons.
  destruct (shouldEscape c1) eqn:Hc1.
  - cbn. rewrite (shouldEscape_not_dot c1 Hc1).
    change (Ascii.eqb "%" ".") with false. by rewrite !andb_false_r.
  - change (Ascii.eqb c dot && Ascii.eqb c1 dot && ends_elem (escape s1)
            = Ascii.eqb c dot && Ascii.eqb c1 dot && ends_elem s1).
    by rewrite ends_elem_escape.
Qed.

Lemma dotfree_escape at_start s :
  dotfree at_start (escape s) = dotfree at_start s.
Proof.
  revert at_start. induction s as [|c s IH]; intros at_start; [reflexivity|].
  rewrite escape_cons. destruct (shouldEscape c) eqn:Hc.
  - destruct (hex_roundtrip c) as (_ & _ & _ & H4 & H5).
    cbn [dotfree]. rewrite (shouldEscape_not_slash c Hc), H4, H5.
    change (Ascii.eqb "%" slash) with false. cbn iota.
    change (is_dot_elem (String "%" ?x)) with false.
    change (is_dotdot_elem (String "%" ?x)) with false.
    assert (is_dot_elem (String c s) = false) as ->.
    { cbn. by rewrite (shouldEscape_not_dot c Hc). }
    assert (is_dotdot_elem (String c s) = false) as ->.
    { destruct s; cbn; [reflexivity|]. by rewrite (shouldEscape_not_dot c Hc). }
    cbn [negb andb orb]. rewrite !orb_true_r, IH. reflexivity.
  - cbn [dotfree]. rewrite (is_dot_elem_escape c s Hc),
      (is_dotdot_elem_escape c s Hc), !IH. reflexivity.
Qed.

Lemma strings_HasPrefix_cons c s :
  strings_HasPrefix (String c s) "/" = Ascii.eqb c slash.
Proof.
  unfold strings_HasPrefix.
  change (String.prefix "/" (String c s))
    with (if ascii_dec "/" c then String.prefix "" s else false).
  destruct (ascii_dec "/" c) as [<-|Hne].
  - by destruct s.
  - symmetry. apply Ascii.eqb_neq. unfold slash. congruence.
Qed.

(** *** [JoinPath] without elements *)

Lemma path_Clean_shape c0 r0 :
  Ascii.eqb c0 slash = false ->
  dotfree true (String c0 r0) = true ->
  exists S', path_Clean (String slash (String c0 r0)) = String slash S' /\
             last_is_slash (String slash S') = last_is_slash S'.
Proof.
  intros Hc0 Hfree.
  destruct (clean_loop_dotfree (String c0 r0) [slash] false) as [Ht Hf];
    [by split | exact Hfree |].
  set (out := clean_loop true (String c0 r0) [slash] 1 false) in *.
  set (cop := end_mode (String c0 r0) false) in *.
  assert (path_Clean (String slash (String c0 r0)) = string_of_rev out "") as ->.
  { unfold path_Clean, slash. rewrite Ascii.eqb_refl. fold slash. fold out.
    destruct out; [done | reflexivity]. }
  unfold finish in Hf. cbn [collapse_aux negb] in Hf. rewrite Hc0 in Hf.
  change (string_of_rev [slash] "" +:+ (if false || (length [slash] =? 1)%nat
                                        then "" else "/"))
    with "/" in Hf.
  change ("/" +:+ String c0 (collapse_aux false r0))
    with (String slash (String c0 (collapse_aux false r0))) in Hf.
  destruct (string_of_rev out "") as [|x S'].
  { rewrite string_app_nil_l in Hf. destruct (cop || _); discriminate. }
  rewrite string_app_cons in Hf. injection Hf as -> Hf.
  exists S'. split; [reflexivity|].
  destruct S' as [|y S'']; [|reflexivity].
  rewrite string_app_nil_l in Hf.
  destruct (cop || _); [discriminate|].
  injection Hf as <- _. unfold slash in Hc0. by rewrite Ascii.eqb_refl in Hc0.
Qed.

Lemma URL_JoinPath_joined u :
  URL_JoinPath u [] = URL_setPath u (joined_path (URL_EscapedPath u)).
Proof. reflexivity. Qed.

Lemma joined_path_collapses e0 :
  e0 <> "" ->
  dotfree true e0 = true ->
  joined_path e0 = spec_collapse_slashes e0.
Proof.
  intros Hne Hfree. destruct e0 as [|c0 r0]; [done|].
  unfold joined_path. rewrite strings_HasPrefix_cons.
  destruct (Ascii.eqb c0 slash) eqn:Hc0; cbn [negb last].
  - apply Ascii.eqb_eq in Hc0. subst c0.
    assert (dotfree true r0 = true) as Hfree'.
    { cbn [dotfree] in Hfree. unfold slash in Hfree.
      by rewrite Ascii.eqb_refl in Hfree. }
    change (path_Join [String slash r0]) with (path_Clean (String slash r0)).
    exact (path_Clean_collapses r0 Hfree').
  - change ("/" +:+ String c0 r0) with (String slash (String c0 r0)).
    change (path_Join [String slash (String c0 r0)])
      with (path_Clean (String slash (String c0 r0))).
    pose proof (path_Clean_collapses (String c0 r0) Hfree) as Hq.
    cbn zeta in Hq.
    destruct (path_Clean_shape c0 r0 Hc0 Hfree) as (S' & HS & Hlast).
    rewrite HS in Hq |- *. cbn [string_tail].
    rewrite !strings_HasSuffix_slash in Hq |- *. rewrite Hlast in Hq.
    unfold spec_collapse_slashes in Hq |- *.
    cbn [collapse_aux] in Hq. unfold slash at 4 in Hq.
    rewrite Ascii.eqb_refl in Hq.
    rewrite Hc0 in Hq. cbn [collapse_aux]. rewrite Hc0.
    change (List.last [String slash (String c0 r0)] "")
      with (String slash (String c0 r0)).
    destruct (last_is_slash (String slash (String c0 r0)) && _);
      rewrite ?string_app_cons in Hq; by injection Hq.
Qed.

Lemma URL_JoinPath_path u :
  RawPath u = "" ->
  Path u <> "" ->
  dotfree true (Path u) = true ->
  Path (URL_JoinPath u []) = spec_collapse_slashes (Path u).
Proof.
  intros Hraw Hne Hfree. rewrite URL_JoinPath_joined.
  unfold URL_EscapedPath. rewrite Hraw. cbn [String.eqb negb andb].
  destruct (String.eqb_spec (Path u) "*") as [Hstar|_].
  - rewrite Hstar. reflexivity.
  - assert (escape (Path u) <> "") as Hne'.
    { destruct (Path u) as [|c s]; [done|]. rewrite escape_cons.
      by destruct (shouldEscape c). }
    rewrite (joined_path_collapses _ Hne') by (by rewrite dotfree_escape).
    unfold spec_collapse_slashes. rewrite collapse_escape.
    unfold URL_setPath. rewrite unescape_escape. reflexivity.
Qed.
Lemma strip_condition q :
  strings_HasSuffix q "/" = true ->
  (1 <? String.length q)%nat = negb (String.eqb q "/").
Proof.
  rewrite strings_HasSuffix_slash. destruct q as [|c [|c' q]]; [discriminate| |].
  - cbn. intros ->%Ascii.eqb_eq. reflexivity.
  - intros _. cbn. destruct (Ascii.eqb c "/"); reflexivity.
Qed.

Lemma stripped_URL_path strip u :
  RawPath u = "" ->
  Path u <> "" ->
  dotfree true (Path u) = true ->
  Path (stripped_URL strip u) = spec_strip_path strip (Path u).
Proof.
  intros Hraw Hne Hfree. unfold stripped_URL, spec_strip_path.
  pose proof (URL_JoinPath_path u Hraw Hne Hfree) as Hj. cbn zeta.
  rewrite !Hj.
  destruct (strings_HasSuffix (spec_collapse_slashes (Path u)) "/") eqn:Hs.
  - rewrite (strip_condition _ Hs).
    destruct (strip && _ && true); cbn [Path]; [reflexivity | exact Hj].
  - rewrite !andb_false_r. exact Hj.
Qed.

Lemma stripped_URL_frame strip u :
  Scheme (stripped_URL strip u) = Scheme u /\
  Host (stripped_URL strip u) = Host u /\
  RawQuery (stripped_URL strip u) = RawQuery u /\
  Fragment (stripped_URL strip u) = Fragment u.
Proof.
  assert (forall p, Scheme (URL_setPath u p) = Scheme u /\
                    Host (URL_setPath u p) = Host u /\
                    RawQuery (URL_setPath u p) = RawQuery u /\
                    Fragment (URL_setPath u p) = Fragment u) as Hset.
  { intros p. unfold URL_setPath. destruct (unescape p); repeat split. }
  unfold stripped_URL, URL_JoinPath.
  destruct (strip && _ && _); cbn [Scheme Host RawQuery Fragment]; apply Hset.
Qed.

Lemma StripSlashes_run strip next r w req u :
  request_url w r = Some (req, u) ->
  wrap_with (StripSlashes strip) next r w
  = next r
      (set_requests
         (insert r (mkRequest (Method req) (Some (fresh (dom (urls w))))
                      (req_Header req) (req_ctx req)))
         (set_urls (insert (fresh (dom (urls w))) (stripped_URL strip u)) w)).
Proof.
  intros Hu. cbn [wrap_with StripSlashes]. rewrite Hu. unfold stripped_URL.
  destruct (strip && _ && _); [|reflexivity].
  f_equal. unfold set_urls, set_requests. cbn [requests urls headers cancels now stdout].
  by rewrite insert_insert_eq.
Qed.

(** C7, amended: in every case [StripSlashes] hands on the request with
    [r.URL] set to a new URL whose scheme, host, query and fragment are those
    of the old one.  When the old URL has no [RawPath] and its path is not
    empty and has no [.] or [..] element, the new path is the old one with
    every run of separators collapsed into one and, when [stripTrailing] is
    set, without its trailing separator unless it is the root. *)
Theorem StripSlashes_normalises (strip : bool) (next : DoerFunc)
    (r : positive) (w : World) (req : Request) (u : URL) :
  request_url w r = Some (req, u) ->
  exists mw u',
    StripSlashes strip = Some mw /\
    mw next r w
    = next r
        (set_requests
           (insert r (mkRequest (Method req) (Some (fresh (dom (urls w))))
                        (req_Header req) (req_ctx req)))
           (set_urls (insert (fresh (dom (urls w))) u') w)) /\
    Scheme u' = Scheme u /\ Host u' = Host u /\
    RawQuery u' = RawQuery u /\ Fragment u' = Fragment u /\
    (RawPath u = "" ->
     Path u <> "" ->
     dotfree true (Path u) = true ->
     Path u' = spec_strip_path strip (Path u)).
Proof.
  intros Hu. eexists _, (stripped_URL strip u). split; [reflexivity|].
  split; [exact (StripSlashes_run strip next r w req u Hu)|].
  destruct (stripped_URL_frame strip u) as (Hs & Hh & Hq & Hf).
  repeat (split; [assumption|]). apply stripped_URL_path.
Qed.

Lemma StripSlashes_normalises_witness :
  exists mw u',
    StripSlashes true = Some mw /\
    mw path_spy 1%positive (sample_world (sample_url "http" "///v1//foo/"))
    = path_spy 1%positive
        (set_requests
           (insert 1%positive
              (mkRequest "GET" (Some 2%positive) (Some 1%positive) None))
           (set_urls (insert 2%positive u')
              (sample_world (sample_url "http" "///v1//foo/")))) /\
    Scheme u' = "http" /\ Host u' = "example.com" /\
    RawQuery u' = "q=1" /\ Fragment u' = "top" /\
    Path u' = "/v1/foo".
Proof.
  destruct (StripSlashes_normalises true path_spy 1%positive
              (sample_world (sample_url "http" "///v1//foo/"))
              (mkRequest "GET" (Some 1%positive) (Some 1%positive) None)
              (sample_url "http" "///v1//foo/") eq_refl)
    as (mw & u' & Hmw & Hrun & Hs & Hh & Hq & Hf & Hp).
  exists mw, u'. repeat (split; [assumption|]).
  apply Hp; [reflexivity | discriminate | reflexivity].
Defined.

(** A URL whose [RawPath] encodes a separator keeps the run of separators in
    its decoded path, and an empty path becomes the root. *)
Example strip_slashes_raw_path :
  Path (stripped_URL false (mkURL "http" "example.com" "/a//b" "/a%2F/b" "" ""))
  = "/a//b" /\
  spec_strip_path false "/a//b" = "/a/b" /\
  Path (stripped_URL false (sample_url "http" "")) = "/" /\
  spec_strip_path false "" = "".
Proof. vm_compute. repeat split. Qed.

(** * Further properties *)

(** ** Chain composition *)

(** X1: the loop of [applyMiddlewares] nests the present middlewares from
    the right: the first one is applied last and so is outermost; nil
    entries, wherever and however many, contribute nothing. *)
Theorem applyMiddlewares_nests_present (base : DoerFunc)
    (mws : list MiddlewareFunc) :
  applyMiddlewares base mws = foldr (fun mw chain => mw chain) base (present mws).
Proof.
  rewrite applyMiddlewares_foldr. unfold present.
  induction mws as [|[mw|] mws IH]; cbn; [reflexivity | by rewrite IH | exact IH].
Qed.

(** ** Wrappers *)

Lemma slice_wf_frame h h' s :
  (forall a l, arrays h !! a = Some l -> arrays h' !! a = Some l) ->
  slice_wf h s -> slice_wf h' s /\ slice_elems h' s = slice_elems h s.
Proof.
  intros Hfr. unfold slice_wf, slice_elems.
  destruct (slice_array s) as [a|]; [|done].
  intros [l Hl]. rewrite (Hfr _ _ Hl), Hl. eauto.
Qed.

Lemma slices_Concat_wf ss h s' h' :
  slices_Concat ss h = (s', h') -> slice_wf h' s'.
Proof.
  unfold slices_Concat. destruct (foldr _ _ ss); intros [= <- <-]; [done|].
  cbn. rewrite lookup_insert_eq. eauto.
Qed.

Lemma Client_coherent_frame h h' cl :
  (forall a l, arrays h !! a = Some l -> arrays h' !! a = Some l) ->
  Client_coherent h cl -> Client_coherent h' cl.
Proof.
  intros Hfr [Hwf Hch]. destruct (slice_wf_frame h h' _ Hfr Hwf) as [Hwf' He].
  split; [exact Hwf' | by rewrite He].
Qed.

Lemma RoundTripper_coherent_frame h h' tr :
  (forall a l, arrays h !! a = Some l -> arrays h' !! a = Some l) ->
  RoundTripper_coherent h tr -> RoundTripper_coherent h' tr.
Proof.
  intros Hfr [Hwf Hch]. destruct (slice_wf_frame h h' _ Hfr Hwf) as [Hwf' He].
  split; [exact Hwf' | by rewrite He].
Qed.

Lemma NewClient_coherent doer mws h :
  heap_coherent h -> slice_wf h mws ->
  heap_coherent (snd (NewClient doer mws h)).
Proof.
  intros [Hc Ht] Hwf. unfold NewClient. cbn [snd]. split.
  - intros c cl. cbn [clients]. intros [[<- <-]|[_ Hl]]%lookup_insert_Some.
    + split; [exact Hwf | reflexivity].
    + exact (Hc c cl Hl).
  - intros t tr Hl. exact (Ht t tr Hl).
Qed.

Lemma NewRoundTripper_coherent rt mws h :
  heap_coherent h -> slice_wf h mws ->
  heap_coherent (snd (NewRoundTripper rt mws h)).
Proof.
  intros [Hc Ht] Hwf. unfold NewRoundTripper. cbn [snd]. split.
  - intros c cl Hl. exact (Hc c cl Hl).
  - intros t tr. cbn [roundTrippers].
    intros [[<- <-]|[_ Hl]]%lookup_insert_Some.
    + split; [exact Hwf | reflexivity].
    + exact (Ht t tr Hl).
Qed.

Lemma slices_Concat_coherent ss h s' h' :
  slices_Concat ss h = (s', h') -> heap_coherent h -> heap_coherent h'.
Proof.
  intros Hcat [Hc Ht].
  destruct (slices_Concat_frame _ _ _ _ Hcat) as (Hcl & Hrt & Hfr). split.
  - intros c cl. rewrite Hcl. intros Hl.
    exact (Client_coherent_frame h h' cl Hfr (Hc c cl Hl)).
  - intros t tr. rewrite Hrt. intros Hl.
    exact (RoundTripper_coherent_frame h h' tr Hfr (Ht t tr Hl)).
Qed.

(** X2: the wrappers keep their invariant.  In a heap where every client and
    every round tripper holds the composition of its own middlewares around
    its own base, [NewClient], [NewRoundTripper] and both [With] methods
    produce a heap where this is again so, for the new wrapper and for all
    the old ones. *)
Theorem wrappers_stay_coherent (h : Heap) (mws : slice) :
  heap_coherent h ->
  slice_wf h mws ->
  (forall doer, heap_coherent (snd (NewClient doer mws h))) /\
  (forall rt, heap_coherent (snd (NewRoundTripper rt mws h))) /\
  (forall c c' h', Client_With c mws h = Some (c', h') -> heap_coherent h') /\
  (forall t t' h', RoundTripper_With t mws h = Some (t', h') ->
                   heap_coherent h').
Proof.
  intros Hco Hwf. split; [|split; [|split]].
  - intros doer. by apply NewClient_coherent.
  - intros rt. by apply NewRoundTripper_coherent.
  - intros c c' h'. unfold Client_With.
    destruct (clients h !! c) as [cl|]; [|discriminate].
    destruct (slices_Concat _ h) as [all h1] eqn:Hcat. intros [= <- <-].
    change (heap_coherent (snd (NewClient (Client_base cl) all h1))).
    apply NewClient_coherent.
    + exact (slices_Concat_coherent _ _ _ _ Hcat Hco).
    + exact (slices_Concat_wf _ _ _ _ Hcat).
  - intros t t' h'. unfold RoundTripper_With.
    destruct (roundTrippers h !! t) as [tr|]; [|discriminate].
    destruct (slices_Concat _ h) as [all h1] eqn:Hcat. intros [= <- <-].
    change (heap_coherent
              (snd (NewRoundTripper (RoundTripper_base tr) all h1))).
    apply NewRoundTripper_coherent.
    + exact (slices_Concat_coherent _ _ _ _ Hcat Hco).
    + exact (slices_Concat_wf _ _ _ _ Hcat).
Qed.

Lemma sample_heap_coherent : heap_coherent sample_heap.
Proof.
  unfold sample_heap.
  apply NewRoundTripper_coherent; [apply NewClient_coherent|];
    [| cbn; eauto | cbn; eauto].
  split; intros x y Hl; cbn in Hl; by rewrite lookup_empty in Hl.
Qed.

Lemma wrappers_stay_coherent_witness :
  heap_coherent
    (snd (NewClient (DoerFunc_as_Doer recording_base) sample_new_mws
            sample_heap)).
Proof.
  apply (wrappers_stay_coherent sample_heap sample_new_mws).
  - exact sample_heap_coherent.
  - cbn. eauto.
Defined.

Lemma Client_With_frame c mws h c' h' :
  Client_With c mws h = Some (c', h') ->
  (forall a l, arrays h !! a = Some l -> arrays h' !! a = Some l) /\
  (forall cl', clients h' !! c' = Some cl' ->
               slice_wf h' (Client_middlewares cl')).
Proof.
  unfold Client_With. destruct (clients h !! c) as [cl|]; [|discriminate].
  destruct (slices_Concat _ h) as [all h1] eqn:Hcat. intros [= <- <-].
  destruct (slices_Concat_frame _ _ _ _ Hcat) as (_ & _ & Hfr).
  split; [exact Hfr|]. intros cl'. cbn [clients].
  rewrite lookup_insert_eq. intros [= <-].
  exact (slices_Concat_wf _ _ _ _ Hcat).
Qed.

(** X3: deriving twice is deriving once with both lists.  For a client with
    middlewares [p], [c.With(a...).With(b...)] is a client on the same base
    whose middlewares are [p ++ a ++ b] and whose [Do] is their composition
    around the base, which is what [c.With(a ++ b ...)] gives. *)
Theorem Client_With_With (h : Heap) (c : positive) (cl : Client)
    (a b : slice) :
  clients h !! c = Some cl ->
  slice_wf h (Client_middlewares cl) ->
  slice_wf h b ->
  exists c1 h1 c2 h2 cl2,
    Client_With c a h = Some (c1, h1) /\
    Client_With c1 b h1 = Some (c2, h2) /\
    clients h2 !! c2 = Some cl2 /\
    Client_base cl2 = Client_base cl /\
    slice_elems h2 (Client_middlewares cl2)
    = slice_elems h (Client_middlewares cl)
      ++ slice_elems h a ++ slice_elems h b /\
    Client_Do h2 c2
    = applyMiddlewares (Do (Client_base cl))
        (slice_elems h (Client_middlewares cl)
         ++ slice_elems h a ++ slice_elems h b).
Proof.
  intros Hc Hwf Hwfb.
  destruct (Client_With_correct h c cl a Hc Hwf)
    as (c1 & h1 & cl1 & Hw1 & _ & Hc1 & Hb1 & He1 & Hch1 & _).
  destruct (Client_With_frame _ _ _ _ _ Hw1) as [Hfr Hwf1].
  destruct (Client_With_correct h1 c1 cl1 b Hc1 (Hwf1 cl1 Hc1))
    as (c2 & h2 & cl2 & Hw2 & _ & Hc2 & Hb2 & He2 & Hch2 & _).
  destruct (slice_wf_frame h h1 b Hfr Hwfb) as [_ Heb].
  exists c1, h1, c2, h2, cl2.
  rewrite He1, Heb, <- app_assoc in He2. rewrite He1, Heb, <- app_assoc, Hb1 in Hch2.
  repeat (split; [assumption || congruence|]).
  unfold Client_Do. rewrite Hc2, Hch2. reflexivity.
Qed.

Lemma Client_With_With_witness :
  exists c1 h1 c2 h2 cl2,
    Client_With 1%positive sample_new_mws sample_heap = Some (c1, h1) /\
    Client_With c1 sample_parent_mws h1 = Some (c2, h2) /\
    clients h2 !! c2 = Some cl2 /\
    Client_base cl2 = DoerFunc_as_Doer recording_base /\
    slice_elems h2 (Client_middlewares cl2)
    = [printing "A"; printing "B"] ++ [printing "C"]
      ++ [printing "A"; printing "B"] /\
    Client_Do h2 c2
    = applyMiddlewares recording_base
        ([printing "A"; printing "B"] ++ [printing "C"]
         ++ [printing "A"; printing "B"]).
Proof.
  apply (Client_With_With sample_heap 1%positive sample_client sample_new_mws
           sample_parent_mws); [reflexivity | cbn; eauto | cbn; eauto].
Defined.

Lemma Client_Do_lookup h c cl :
  clients h !! c = Some cl -> Client_Do h c = Do (Client_chain cl).
Proof. intros Hl. unfold Client_Do. rewrite Hl. reflexivity. Qed.

(** X4: a client is a [Doer], so it can be the base of another client.  The
    outer client then does what one client with the outer middlewares
    followed by the inner ones does around the inner base. *)
Theorem Client_on_Client (h : Heap) (base : Doer) (inner outer : slice) :
  let '(c1, h1) := NewClient base inner h in
  let '(c2, h2) := NewClient (Client_as_Doer h1 c1) outer h1 in
  Client_Do h2 c2
  = applyMiddlewares (Do base) (slice_elems h outer ++ slice_elems h inner).
Proof.
  unfold NewClient, Client_as_Doer. cbn [clients arrays].
  rewrite (Client_Do_lookup _ _ _ (lookup_insert_eq _ _ _)).
  cbn [Client_chain Client_base].
  rewrite (Client_Do_lookup _ _ _ (lookup_insert_eq _ _ _)).
  cbn [Client_chain]. rewrite applyMiddlewares_app. reflexivity.
Qed.

(** X5: [NewClient] keeps the slice it is given; it does not copy it.  When
    the caller later assigns to an element of that slice, the client does
    what it did before, for its chain was composed at construction; but a
    client derived from it afterwards is composed from the assigned
    element. *)
Theorem NewClient_aliases_slice (h : Heap) (doer : Doer) (mws : slice)
    (i : nat) (m : MiddlewareFunc) (h2 : Heap) :
  let '(c, h1) := NewClient doer mws h in
  slice_store mws i m h1 = Some h2 ->
  Client_Do h2 c = applyMiddlewares (Do doer) (slice_elems h mws) /\
  exists c' h3 cl',
    Client_With c nil_slice h2 = Some (c', h3) /\
    clients h3 !! c' = Some cl' /\
    Client_chain cl'
    = DoerFunc_as_Doer
        (applyMiddlewares (Do doer) (<[i := m]> (slice_elems h mws))).
Proof.
  unfold NewClient. intros Hst. unfold slice_store in Hst. cbn [arrays] in Hst.
  destruct (slice_array mws) as [a|] eqn:Ha; [|discriminate].
  destruct (arrays h !! a) as [l|] eqn:Hl; [|discriminate].
  destruct ((i <? slice_len mws)%nat && (slice_off mws + i <? length l)%nat)
    eqn:Hb; [|discriminate].
  apply andb_true_iff in Hb as [Hi Hj].
  apply Nat.ltb_lt in Hi, Hj. injection Hst as <-.
  set (cl := mkClient doer
               (DoerFunc_as_Doer
                  (applyMiddlewares (Do doer) (slice_elems h mws))) mws).
  set (h2 := mkHeap _ _ _).
  assert (clients h2 !! fresh (dom (clients h)) = Some cl) as Hc
    by apply lookup_insert_eq.
  split; [by rewrite (Client_Do_lookup _ _ _ Hc)|].
  assert (slice_wf h2 (Client_middlewares cl)) as Hwf.
  { unfold slice_wf. cbn. rewrite Ha. cbn. rewrite lookup_insert_eq. eauto. }
  destruct (Client_With_correct h2 _ cl nil_slice Hc Hwf)
    as (c' & h3 & cl' & Hw & _ & Hc' & Hb' & _ & Hch & _).
  exists c', h3, cl'. split; [exact Hw|]. split; [exact Hc'|].
  rewrite Hch. do 2 f_equal. cbn [Client_base Client_middlewares cl].
  rewrite app_nil_r. unfold slice_elems. rewrite Ha. cbn [arrays h2].
  rewrite lookup_insert_eq, Hl.
  rewrite drop_insert_ge by lia. rewrite take_insert_lt by lia.
  f_equal. lia.
Qed.

Lemma NewClient_aliases_slice_witness :
  exists h2,
    slice_store sample_parent_mws 0 (printing "Z")
      (snd (NewClient (DoerFunc_as_Doer recording_base) sample_parent_mws
              sample_heap0)) = Some h2 /\
    Client_Do h2 1%positive
    = applyMiddlewares recording_base [printing "A"; printing "B"] /\
    exists c' h3 cl',
      Client_With 1%positive nil_slice h2 = Some (c', h3) /\
      clients h3 !! c' = Some cl' /\
      Client_chain cl'
      = DoerFunc_as_Doer
          (applyMiddlewares recording_base [printing "Z"; printing "B"]).
Proof.
  eexists. split; [reflexivity|].
  apply (NewClient_aliases_slice sample_heap0 (DoerFunc_as_Doer recording_base)
           sample_parent_mws 0 (printing "Z")).
  reflexivity.
Defined.

(** ** Recover and [PanicError] *)

(** X6: a chain whose first middleware is [Recover] never panics, whatever
    the other middlewares and the base executor do. *)
Theorem Recover_first_never_panics (debug_Stack : World -> string)
    (base : DoerFunc) (mws : list MiddlewareFunc) (r : positive) (w : World) :
  exists resp err w',
    applyMiddlewares base (Recover debug_Stack :: mws) r w
    = (Returns resp err, w').
Proof.
  rewrite applyMiddlewares_cons. cbn [wrap_with Recover].
  destruct (applyMiddlewares base mws r w) as [[resp err|v] w']; eauto.
Qed.


(** ** Header setters *)

(** X8: of two header setters for the same header, the later one wins: a
    chain where [SetHeader(k1, v1)] is followed by [SetHeader(k2, v2)], with
    [k1] and [k2] naming the same header, does what the chain with
    [SetHeader(k2, v2)] alone does. *)
Theorem SetHeader_last_wins (canon : string -> string) (k1 k2 v1 v2 : string)
    (base : DoerFunc) (r : positive) (w : World) :
  canon k1 = canon k2 ->
  k2 <> "" ->
  applyMiddlewares base [SetHeader canon k1 v1; SetHeader canon k2 v2] r w
  = applyMiddlewares base [SetHeader canon k2 v2] r w.
Proof.
  intros Hk Hk2. rewrite !applyMiddlewares_cons. unfold SetHeader.
  destruct (String.eqb_spec k2 "") as [?|_]; [done|].
  destruct (String.eqb k1 ""); [reflexivity|].
  cbn [wrap_with applyMiddlewares applyMiddlewares_loop length].
  destruct (requests w !! r) as [req|] eqn:Hr; [|reflexivity].
  destruct (req_Header req) as [a|] eqn:Ha; [|reflexivity].
  destruct (headers w !! a) as [h|] eqn:Hh; [|reflexivity].
  cbn [requests set_headers headers]. rewrite Hr, Ha, lookup_insert_eq.
  f_equal. unfold set_headers, Header_Set.
  cbn [requests urls headers cancels now stdout].
  by rewrite insert_insert_eq, Hk, insert_insert_eq.
Qed.

Lemma SetHeader_last_wins_witness :
  applyMiddlewares recording_base
    [SetHeader (fun k => k) "X-Foo" "one"; SetHeader (fun k => k) "X-Foo" "two"]
    1%positive (sample_world (sample_url "https" "/"))
  = applyMiddlewares recording_base [SetHeader (fun k => k) "X-Foo" "two"]
      1%positive (sample_world (sample_url "https" "/")).
Proof.
  apply (SetHeader_last_wins (fun k => k) "X-Foo" "X-Foo" "one" "two");
    [reflexivity | discriminate].
Defined.

(** X9: header setters for different headers commute. *)
Theorem SetHeader_commute (canon : string -> string) (k1 k2 v1 v2 : string)
    (base : DoerFunc) (r : positive) (w : World) :
  canon k1 <> canon k2 ->
  applyMiddlewares base [SetHeader canon k1 v1; SetHeader canon k2 v2] r w
  = applyMiddlewares base [SetHeader canon k2 v2; SetHeader canon k1 v1] r w.
Proof.
  intros Hk. rewrite !applyMiddlewares_cons. unfold SetHeader.
  destruct (String.eqb k1 ""), (String.eqb k2 ""); try reflexivity.
  cbn [wrap_with applyMiddlewares applyMiddlewares_loop length].
  destruct (requests w !! r) as [req|] eqn:Hr; [|reflexivity].
  destruct (req_Header req) as [a|] eqn:Ha; [|reflexivity].
  destruct (headers w !! a) as [h|] eqn:Hh; [|reflexivity].
  cbn [requests set_headers headers]. rewrite Hr, Ha, !lookup_insert_eq.
  f_equal. unfold set_headers, Header_Set.
  cbn [requests urls headers cancels now stdout].
  rewrite !insert_insert_eq. do 2 f_equal. by apply insert_insert_ne.
Qed.

Lemma SetHeader_commute_witness :
  applyMiddlewares recording_base
    [SetHeader (fun k => k) "X-Foo" "one"; SetHeader (fun k => k) "X-Bar" "two"]
    1%positive (sample_world (sample_url "https" "/"))
  = applyMiddlewares recording_base
      [SetHeader (fun k => k) "X-Bar" "two"; SetHeader (fun k => k) "X-Foo" "one"]
      1%positive (sample_world (sample_url "https" "/")).
Proof.
  apply (SetHeader_commute (fun k => k) "X-Foo" "X-Bar" "one" "two").
  discriminate.
Defined.

(** X10: [UserAgent], [Accept], [ContentType] and [Authorization] install a
    middleware for every value, the empty one included, which makes the
    wrapped executor see the header with that single value.
    [AuthorizationBearer] is nil exactly for the empty token, and otherwise
    is [Authorization] with the token after the word Bearer and a space. *)
Theorem header_setters_install (canon : string -> string) (v : string)
    (next : DoerFunc) (r : positive) (w : World) (req : Request)
    (a : positive) (h : gmap string (list string)) :
  requests w !! r = Some req ->
  req_Header req = Some a ->
  headers w !! a = Some h ->
  Forall (fun kf : string * (string -> MiddlewareFunc) =>
            wrap_with (snd kf v) next r w
            = next r (set_headers (insert a (<[canon (fst kf) := [v]]> h)) w)
            /\ snd kf v <> None)
         [("User-Agent", UserAgent canon); ("Accept", Accept canon);
          ("Content-Type", ContentType canon);
          ("Authorization", Authorization canon)] /\
  (AuthorizationBearer canon v = None <-> v = "") /\
  (v <> "" ->
   AuthorizationBearer canon v = Authorization canon ("Bearer " +:+ v)).
Proof.
  intros Hr Ha Hh. split; [|split].
  - repeat constructor; cbn [fst snd];
      unfold UserAgent, Accept, ContentType, Authorization, SetHeader;
      cbn [String.eqb wrap_with];
      first [discriminate | by rewrite Hr, Ha, Hh].
  - unfold AuthorizationBearer. destruct (String.eqb_spec v "") as [->|Hv].
    + done.
    + split; [discriminate | done].
  - intros Hv. unfold AuthorizationBearer.
    destruct (String.eqb_spec v ""); [done | reflexivity].
Qed.

Lemma header_setters_install_witness :
  Forall (fun kf : string * (string -> MiddlewareFunc) =>
            wrap_with (snd kf "") recording_base 1%positive
              (sample_world (sample_url "https" "/"))
            = recording_base 1%positive
                (set_headers
                   (insert 1%positive
                      (<[fst kf := [""]]> {[ "X-Foo" := ["old"; "older"] ]}))
                   (sample_world (sample_url "https" "/")))
            /\ snd kf "" <> None)
         [("User-Agent", UserAgent (fun k => k)); ("Accept", Accept (fun k => k));
          ("Content-Type", ContentType (fun k => k));
          ("Authorization", Authorization (fun k => k))] /\
  (AuthorizationBearer (fun k => k) "" = None <-> "" = "") /\
  ("" <> "" ->
   AuthorizationBearer (fun k => k) ""
   = Authorization (fun k => k) ("Bearer " +:+ "")).
Proof.
  apply (header_setters_install (fun k => k) "" recording_base 1%positive
           (sample_world (sample_url "https" "/"))
           (mkRequest "GET" (Some 1%positive) (Some 1%positive) None)
           1%positive {[ "X-Foo" := ["old"; "older"] ]}); reflexivity.
Defined.

(** ** Secure *)

(** X11: where [Secure] stands in the chain decides what an insecure request
    leaves behind.  With [Secure] first nothing else runs and the world is
    untouched; with a header setter before it the call fails in the same
    way, but the header has been written to the caller's request. *)
Theorem Secure_placement (canon : string -> string) (k v : string)
    (base : DoerFunc) (mws : list MiddlewareFunc) (r : positive) (w : World)
    (req : Request) (u : URL) (a : positive) (h : gmap string (list string)) :
  request_url w r = Some (req, u) ->
  Scheme u <> "https" ->
  req_Header req = Some a ->
  headers w !! a = Some h ->
  k <> "" ->
  applyMiddlewares base (Secure :: mws) r w
  = (Returns None (Some ErrInsecureScheme), w) /\
  applyMiddlewares base (SetHeader canon k v :: Secure :: mws) r w
  = (Returns None (Some ErrInsecureScheme),
     set_headers (insert a (Header_Set canon h k v)) w).
Proof.
  intros Hu Hs Ha Hh Hk.
  assert (requests w !! r = Some req) as Hr.
  { unfold request_url in Hu. destruct (requests w !! r) as [req0|]; [|done].
    destruct (req_URL req0); [|done]. destruct (urls w !! _); [|done].
    by injection Hu as -> _. }
  assert (forall w', requests w' = requests w -> urls w' = urls w ->
            wrap_with Secure (applyMiddlewares base mws) r w'
            = (Returns None (Some ErrInsecureScheme), w')) as Hsec.
  { intros w' Hrq Hur. cbn [wrap_with Secure]. unfold request_url.
    rewrite Hrq, Hur. fold (request_url w r). rewrite Hu.
    destruct (String.eqb_spec (Scheme u) "https"); [done | reflexivity]. }
  split.
  - rewrite applyMiddlewares_cons. by apply Hsec.
  - rewrite !applyMiddlewares_cons. unfold SetHeader.
    destruct (String.eqb_spec k ""); [done|].
    cbn [wrap_with] in *. rewrite Hr, Ha, Hh. by apply Hsec.
Qed.

Lemma Secure_placement_witness :
  applyMiddlewares recording_base [Secure; printing "A"] 1%positive
    (sample_world (sample_url "http" "/"))
  = (Returns None (Some ErrInsecureScheme),
     sample_world (sample_url "http" "/")) /\
  applyMiddlewares recording_base
    [SetHeader (fun k => k) "X-Bar" "v"; Secure; printing "A"] 1%positive
    (sample_world (sample_url "http" "/"))
  = (Returns None (Some ErrInsecureScheme),
     set_headers
       (insert 1%positive
          (Header_Set (fun k => k) {[ "X-Foo" := ["old"; "older"] ]} "X-Bar" "v"))
       (sample_world (sample_url "http" "/"))).
Proof.
  apply (Secure_placement (fun k => k) "X-Bar" "v" recording_base
           [printing "A"] 1%positive (sample_world (sample_url "http" "/"))
           (mkRequest "GET" (Some 1%positive) (Some 1%positive) None)
           (sample_url "http" "/") 1%positive
           {[ "X-Foo" := ["old"; "older"] ]});
    try reflexivity; discriminate.
Defined.

(** ** Timeout *)

Lemma cancel_ends parent id deadline w :
  ctx_Err (cancel (timerCtx parent id deadline) id w)
          (timerCtx parent id deadline) <> None.
Proof.
  unfold cancel.
  destruct (ctx_Err w (timerCtx parent id deadline)) eqn:He; [by rewrite He|].
  unfold ctx_Err. cbn [ctx_event cancels set_cancels now].
  rewrite lookup_insert_eq.
  set (own := if now w <? deadline then (now w, Canceled)
              else (deadline, DeadlineExceeded)).
  assert (fst own <= now w) as Hown.
  { subst own. destruct (Z.ltb_spec (now w) deadline); cbn; lia. }
  destruct (ctx_event _ parent) as [[tp ep]|].
  - destruct (Z.leb_spec tp (fst own)).
    + destruct (Z.leb_spec tp (now w)); [done | lia].
    + destruct own as [t e]. cbn in Hown.
      destruct (Z.leb_spec t (now w)); [done | lia].
  - destruct own as [t e]. cbn in Hown.
    destruct (Z.leb_spec t (now w)); [done | lia].
Qed.

(** X12: [Timeout] never leaves its context running.  When the call
    returns, by a normal return of the wrapped executor or by its panic, the
    context that was made for the call is done. *)
Theorem Timeout_always_cancels (d : Z) (next : DoerFunc) (r : positive)
    (w : World) (req : Request) :
  0 < d ->
  requests w !! r = Some req ->
  ctx_Err (snd (wrap_with (Timeout d) next r w))
    (timerCtx (Request_Context req) (fresh (dom (cancels w))) (now w + d))
  <> None.
Proof.
  intros Hd Hr. unfold Timeout. destruct (Z.leb_spec d 0) as [?|_]; [lia|].
  cbn [wrap_with]. rewrite Hr. unfold context_WithTimeout.
  destruct (next _ _) as [out w3]. cbn [snd]. apply cancel_ends.
Qed.

Lemma Timeout_always_cancels_witness :
  ctx_Err (snd (wrap_with (Timeout 5) panicking_base 1%positive
                  (sample_world (sample_url "https" "/"))))
    (timerCtx backgroundCtx 1%positive 5)
  <> None.
Proof.
  apply (Timeout_always_cancels 5 panicking_base 1%positive
           (sample_world (sample_url "https" "/"))
           (mkRequest "GET" (Some 1%positive) (Some 1%positive) None));
    [lia | reflexivity].
Defined.

(** One run of [Timeout(d)] on a stored request, written out. *)
Lemma Timeout_run (d : Z) (next : DoerFunc) (r : positive)
    (w : World) (req : Request) :
  0 < d ->
  requests w !! r = Some req ->
  let id := fresh (dom (cancels w)) in
  let ctx := timerCtx (Request_Context req) id (now w + d) in
  let r2 := fresh (dom (requests w)) in
  let w2 := set_requests (insert r2 (Request_WithContext req ctx))
              (set_cancels (insert id None) w) in
  wrap_with (Timeout d) next r w
  = (fst (next r2 w2), cancel ctx id (snd (next r2 w2))) /\
  requests w2 !! r2 = Some (Request_WithContext req ctx) /\
  now w2 = now w /\
  ctx_event (cancels w2) ctx
  = match ctx_event (cancels w2) (Request_Context req) with
    | Some (tp, ep) =>
        if tp <=? now w + d then Some (tp, ep)
        else Some (now w + d, DeadlineExceeded)
    | None => Some (now w + d, DeadlineExceeded)
    end.
Proof.
  intros Hd Hr id ctx r2 w2.
  unfold Timeout. destruct (Z.leb_spec d 0) as [?|_]; [lia|].
  cbn [wrap_with]. rewrite Hr. unfold context_WithTimeout. fold id. fold ctx.
  change (fresh (dom (requests (set_cancels (insert id None) w)))) with r2.
  fold w2. destruct (next r2 w2) as [out w3]. cbn [fst snd].
  split; [reflexivity|]. split; [apply lookup_insert_eq|].
  split; [reflexivity|].
  subst ctx. cbn [ctx_event cancels set_cancels w2 set_requests].
  rewrite lookup_insert_eq. reflexivity.
Qed.



(** X14: of two nested timeouts the shorter one decides.  For a request on
    the background context, the base executor under [Timeout(d1)] and then
    [Timeout(d2)] is handed a request whose context ends with
    [DeadlineExceeded] at the smaller of [d1] and [d2] from now, and both
    contexts are cancelled on the way out, the inner one first. *)
Theorem Timeout_nested (d1 d2 : Z) (base : DoerFunc) (r : positive)
    (w : World) (req : Request) :
  0 < d1 ->
  0 < d2 ->
  requests w !! r = Some req ->
  Request_Context req = backgroundCtx ->
  exists r3 w3 ctx1 id1 ctx2 id2,
    applyMiddlewares base [Timeout d1; Timeout d2] r w
    = (fst (base r3 w3),
       cancel ctx1 id1 (cancel ctx2 id2 (snd (base r3 w3)))) /\
    requests w3 !! r3 = Some (Request_WithContext req ctx2) /\
    now w3 = now w /\
    ctx_event (cancels w3) ctx2
    = Some (now w + Z.min d1 d2, DeadlineExceeded).
Proof.
  intros Hd1 Hd2 Hr Hbg.
  rewrite !applyMiddlewares_cons.
  change (applyMiddlewares base []) with base.
  destruct (Timeout_run d1 (wrap_with (Timeout d2) base) r w req Hd1 Hr)
    as (Hrun1 & Hr2 & Hnow1 & _).
  set (id1 := fresh (dom (cancels w))) in *.
  set (ctx1 := timerCtx (Request_Context req) id1 (now w + d1)) in *.
  set (r2 := fresh (dom (requests w))) in *.
  set (w2 := set_requests _ _) in *.
  destruct (Timeout_run d2 base r2 w2 _ Hd2 Hr2)
    as (Hrun2 & Hr3 & Hnow2 & Hev).
  set (id2 := fresh (dom (cancels w2))) in *.
  cbn [Request_Context Request_WithContext req_ctx] in *.
  set (ctx2 := timerCtx ctx1 id2 (now w2 + d2)) in *.
  set (r3 := fresh (dom (requests w2))) in *.
  set (w3 := set_requests (insert r3 _) (set_cancels (insert id2 None) w2)) in *.
  exists r3, w3, ctx1, id1, ctx2, id2.
  rewrite Hrun1, Hrun2. cbn [fst snd].
  split; [reflexivity|]. split; [exact Hr3|].
  split; [by rewrite Hnow2|].
  rewrite Hev. subst ctx1. rewrite Hbg. cbn [ctx_event].
  assert (cancels w3 !! id1 = Some None) as ->.
  { subst w3. cbn [cancels set_requests set_cancels].
    rewrite lookup_insert_ne.
    - subst w2. cbn [cancels set_requests set_cancels].
      apply lookup_insert_eq.
    - intros Heq. apply (is_fresh (dom (cancels w2))). fold id2. rewrite Heq.
      subst w2. cbn [cancels set_requests set_cancels].
      rewrite dom_insert_L. set_solver. }
  cbn [fst]. rewrite Hnow1.
  destruct (Z.leb_spec (now w + d1) (now w + d2)); f_equal; f_equal; lia.
Qed.

Lemma Timeout_nested_witness :
  exists r3 w3 ctx1 id1 ctx2 id2,
    applyMiddlewares recording_base [Timeout 7; Timeout 5] 1%positive
      (sample_world (sample_url "https" "/"))
    = (fst (recording_base r3 w3),
       cancel ctx1 id1 (cancel ctx2 id2 (snd (recording_base r3 w3)))) /\
    requests w3 !! r3
    = Some (Request_WithContext
              (mkRequest "GET" (Some 1%positive) (Some 1%positive) None) ctx2) /\
    now w3 = 0 /\
    ctx_event (cancels w3) ctx2 = Some (0 + Z.min 7 5, DeadlineExceeded).
Proof.
  apply (Timeout_nested 7 5 recording_base 1%positive
           (sample_world (sample_url "https" "/"))
           (mkRequest "GET" (Some 1%positive) (Some 1%positive) None));
    [lia | lia | reflexivity | reflexivity].
Defined.

(** ** StripSlashes *)

Lemma collapse_norun b s : norun b (collapse_aux b s) = true.
Proof.
  revert b. induction s as [|c s IH]; intros b; [reflexivity|].
  cbn [collapse_aux]. destruct (Ascii.eqb c slash) eqn:Hc.
  - destruct b; [apply IH|]. cbn [norun]. rewrite Hc. apply IH.
  - cbn [norun]. rewrite Hc. apply IH.
Qed.

Lemma collapse_norun_id b s : norun b s = true -> collapse_aux b s = s.
Proof.
  revert b. induction s as [|c s IH]; intros b; [reflexivity|].
  cbn [norun collapse_aux]. destruct (Ascii.eqb c slash).
  - intros [Hb Hs]%andb_true_iff. destruct b; [discriminate|].
    by rewrite IH.
  - intros Hs. by rewrite IH.
Qed.

Lemma last_is_slash_cons c s :
  s <> "" -> last_is_slash (String c s) = last_is_slash s.
Proof. destruct s; [done | reflexivity]. Qed.

Lemma last_is_slash_inv s :
  last_is_slash s = true -> exists s', s = s' +:+ "/".
Proof.
  induction s as [|c s IH]; [discriminate|].
  destruct s as [|c' s'].
  - cbn. intros ->%Ascii.eqb_eq. by exists "".
  - rewrite last_is_slash_cons by done. intros [s0 ->]%IH.
    by exists (String c s0).
Qed.

Lemma norun_snoc b s :
  norun b (s +:+ "/") = true -> norun b s = true /\ last_is_slash s = false.
Proof.
  revert b. induction s as [|c s IH]; intros b; [done|].
  rewrite string_app_cons. cbn [norun].
  destruct (Ascii.eqb c slash) eqn:Hc.
  - intros [Hb Hs]%andb_true_iff. rewrite Hb.
    destruct s as [|c' s']; [discriminate|].
    rewrite last_is_slash_cons by done. by apply IH.
  - intros Hs. destruct (IH _ Hs) as [Hn Hl]. split; [exact Hn|].
    destruct s; [cbn; exact Hc | by rewrite last_is_slash_cons].
Qed.

Lemma spec_strip_path_norun strip q :
  norun false q = true ->
  spec_strip_path strip q
  = if strip && negb (String.eqb q "/") && strings_HasSuffix q "/"
    then strings_TrimSuffix q "/" else q.
Proof.
  intros Hq. unfold spec_strip_path, spec_collapse_slashes.
  by rewrite (collapse_norun_id _ _ Hq).
Qed.

Lemma spec_strip_path_idempotent strip p :
  spec_strip_path strip (spec_strip_path strip p) = spec_strip_path strip p.
Proof.
  assert (norun false (spec_collapse_slashes p) = true) as Hq
    by apply collapse_norun.
  assert (spec_strip_path strip p
          = spec_strip_path strip (spec_collapse_slashes p)) as ->.
  { rewrite (spec_strip_path_norun strip _ Hq). reflexivity. }
  revert Hq. generalize (spec_collapse_slashes p). intros q Hq.
  rewrite (spec_strip_path_norun strip q Hq).
  destruct (strip && negb (String.eqb q "/") && strings_HasSuffix q "/")
    eqn:Hcond.
  - apply andb_true_iff in Hcond as [_ Hsuf].
    rewrite strings_HasSuffix_slash in Hsuf.
    destruct (last_is_slash_inv _ Hsuf) as [q' ->].
    rewrite strings_TrimSuffix_snoc.
    destruct (norun_snoc _ _ Hq) as [Hn Hl].
    rewrite (spec_strip_path_norun strip q' Hn), strings_HasSuffix_slash, Hl.
    by rewrite andb_false_r.
  - rewrite (spec_strip_path_norun strip q Hq). by rewrite Hcond.
Qed.

Lemma ends_elem_app_slash s : ends_elem (s +:+ "/") = ends_elem s.
Proof. destruct s as [|c s]; reflexivity. Qed.

Lemma is_dot_elem_ends c s :
  is_dot_elem (String c s) = Ascii.eqb c dot && ends_elem s.
Proof. reflexivity. Qed.

Lemma is_dotdot_elem_ends c c1 s :
  is_dotdot_elem (String c (String c1 s))
  = Ascii.eqb c dot && Ascii.eqb c1 dot && ends_elem s.
Proof. reflexivity. Qed.

Lemma dotfree_snoc a s :
  dotfree a (s +:+ "/") = true -> dotfree a s = true.
Proof.
  revert a. induction s as [|c s IH]; intros a; [done|].
  rewrite string_app_cons. cbn [dotfree].
  destruct (Ascii.eqb c slash); [apply IH|].
  intros [Hs Hr]%andb_true_iff. rewrite (IH _ Hr), andb_true_r.
  destruct a; [|reflexivity]. cbn [negb orb] in *.
  rewrite is_dot_elem_ends in *. rewrite ends_elem_app_slash in Hs.
  destruct s as [|c1 s1].
  - revert Hs. cbn. by destruct (Ascii.eqb c dot).
  - rewrite string_app_cons in Hs. rewrite is_dotdot_elem_ends in *.
    by rewrite ends_elem_app_slash in Hs.
Qed.

Lemma ends_elem_collapse s : ends_elem (collapse_aux false s) = ends_elem s.
Proof.
  destruct s as [|c s]; [reflexivity|]. cbn [collapse_aux].
  destruct (Ascii.eqb c slash) eqn:Hc; cbn; by rewrite Hc.
Qed.

Lemma dotfree_weaken s : dotfree true s = true -> dotfree false s = true.
Proof.
  destruct s as [|c s]; [done|]. cbn [dotfree].
  destruct (Ascii.eqb c slash); [done|].
  intros [_ Hr]%andb_true_iff. by rewrite Hr.
Qed.

Lemma dotfree_collapse a b s :
  dotfree a s = true -> dotfree a (collapse_aux b s) = true.
Proof.
  revert a b. induction s as [|c s IH]; intros a b; [done|].
  cbn [dotfree collapse_aux]. destruct (Ascii.eqb c slash) eqn:Hc.
  - intros Hs. destruct b.
    + destruct a; [by apply IH|]. apply dotfree_weaken. by apply IH.
    + cbn [dotfree]. rewrite Hc. by apply IH.
  - intros [Hs Hr]%andb_true_iff. cbn [dotfree]. rewrite Hc.
    rewrite (IH _ _ Hr), andb_true_r.
    destruct a; [|reflexivity]. cbn [negb orb] in *.
    rewrite is_dot_elem_ends in *. rewrite ends_elem_collapse.
    destruct s as [|c1 s1]; [exact Hs|].
    cbn [collapse_aux]. destruct (Ascii.eqb c1 slash) eqn:Hc1.
    + rewrite !is_dotdot_elem_ends in Hs |- *.
      apply Ascii.eqb_eq in Hc1. subst c1.
      change (Ascii.eqb slash dot) with false in Hs |- *.
      by rewrite !andb_false_r in Hs |- *.
    + rewrite !is_dotdot_elem_ends in *. by rewrite ends_elem_collapse.
Qed.

Lemma spec_strip_path_keeps strip p :
  p <> "" -> dotfree true p = true ->
  spec_strip_path strip p <> "" /\ dotfree true (spec_strip_path strip p) = true.
Proof.
  intros Hne Hfree. unfold spec_strip_path.
  set (q := spec_collapse_slashes p).
  assert (q <> "") as Hq.
  { subst q. destruct p as [|c p]; [done|].
    unfold spec_collapse_slashes. cbn. by destruct (Ascii.eqb c slash). }
  assert (dotfree true q = true) as Hfq by (by apply dotfree_collapse).
  destruct (strip && negb (String.eqb q "/") && strings_HasSuffix q "/")
    eqn:Hcond; [|done].
  apply andb_true_iff in Hcond as [[_ Hroot]%andb_true_iff Hsuf].
  rewrite strings_HasSuffix_slash in Hsuf.
  destruct (last_is_slash_inv _ Hsuf) as [q' Hq']. rewrite Hq' in *.
  rewrite strings_TrimSuffix_snoc. split; [|by apply dotfree_snoc].
  intros ->. by rewrite String.eqb_refl in Hroot.
Qed.

Lemma URL_JoinPath_value u :
  RawPath u = "" ->
  Path u <> "" ->
  Path u <> "*" ->
  dotfree true (Path u) = true ->
  URL_JoinPath u []
  = mkURL (Scheme u) (Host u) (spec_collapse_slashes (Path u)) ""
          (RawQuery u) (Fragment u).
Proof.
  intros Hraw Hne Hstar Hfree. rewrite URL_JoinPath_joined.
  unfold URL_EscapedPath. rewrite Hraw. cbn [String.eqb negb andb].
  destruct (String.eqb_spec (Path u) "*") as [?|_]; [done|].
  assert (escape (Path u) <> "") as Hne'.
  { destruct (Path u) as [|c s]; [done|]. rewrite escape_cons.
    by destruct (shouldEscape c). }
  rewrite (joined_path_collapses _ Hne') by (by rewrite dotfree_escape).
  unfold spec_collapse_slashes. rewrite collapse_escape.
  unfold URL_setPath. rewrite unescape_escape. by rewrite String.eqb_refl.
Qed.

Lemma stripped_URL_idempotent strip u :
  RawPath u = "" ->
  Path u <> "" ->
  dotfree true (Path u) = true ->
  Path (stripped_URL strip (stripped_URL strip u))
  = Path (stripped_URL strip u).
Proof.
  intros Hraw Hne Hfree.
  destruct (String.eqb_spec (Path u) "*") as [Hstar|Hstar].
  { destruct u as [s h p raw q f]. cbn in Hraw, Hstar. subst p raw.
    destruct strip; reflexivity. }
  pose proof (URL_JoinPath_value u Hraw Hne Hstar Hfree) as Hj.
  pose proof (stripped_URL_path strip u Hraw Hne Hfree) as Hp.
  destruct (spec_strip_path_keeps strip (Path u) Hne Hfree) as [Hne1 Hfree1].
  assert (RawPath (stripped_URL strip u) = "") as Hraw1.
  { unfold stripped_URL. rewrite Hj. cbn [Path Scheme Host RawPath].
    by destruct (strip && _ && _). }
  rewrite <- Hp in Hne1, Hfree1.
  rewrite (stripped_URL_path strip _ Hraw1 Hne1 Hfree1), Hp.
  apply spec_strip_path_idempotent.
Qed.

Lemma StripSlashes_sees strip next r w req u :
  request_url w r = Some (req, u) ->
  exists w1 req1,
    wrap_with (StripSlashes strip) next r w = next r w1 /\
    request_url w1 r = Some (req1, stripped_URL strip u).
Proof.
  intros Hu. eexists _, _. split; [exact (StripSlashes_run _ _ _ _ _ _ Hu)|].
  unfold request_url. cbn [requests urls set_requests set_urls].
  rewrite lookup_insert_eq. cbn [req_URL]. by rewrite lookup_insert_eq.
Qed.

(** X15: what the wrapped executor finds after [StripSlashes], for a URL
    without [RawPath] whose path is not empty and has no [.] or [..]
    element: a path without two separators in a row and, when
    [stripTrailing] is set, a path that is the root or does not end with a
    separator. *)
Theorem StripSlashes_normal_form (strip : bool) (next : DoerFunc)
    (r : positive) (w : World) (req : Request) (u : URL) :
  request_url w r = Some (req, u) ->
  RawPath u = "" ->
  Path u <> "" ->
  dotfree true (Path u) = true ->
  exists w1 req1 u1,
    wrap_with (StripSlashes strip) next r w = next r w1 /\
    request_url w1 r = Some (req1, u1) /\
    norun false (Path u1) = true /\
    (strip = true -> Path u1 = "/" \/ strings_HasSuffix (Path u1) "/" = false).
Proof.
  intros Hu Hraw Hne Hfree.
  destruct (StripSlashes_sees strip next r w req u Hu) as (w1 & req1 & Hrun & Hu1).
  exists w1, req1, (stripped_URL strip u). split; [exact Hrun|].
  split; [exact Hu1|].
  rewrite (stripped_URL_path strip u Hraw Hne Hfree).
  assert (norun false (spec_collapse_slashes (Path u)) = true) as Hq
    by apply collapse_norun.
  unfold spec_strip_path. revert Hq.
  generalize (spec_collapse_slashes (Path u)). intros q Hq.
  destruct (strip && negb (String.eqb q "/") && strings_HasSuffix q "/")
    eqn:Hcond.
  - apply andb_true_iff in Hcond as [_ Hsuf].
    rewrite strings_HasSuffix_slash in Hsuf.
    destruct (last_is_slash_inv _ Hsuf) as [q' ->].
    rewrite strings_TrimSuffix_snoc.
    destruct (norun_snoc _ _ Hq) as [Hn Hl].
    split; [exact Hn|]. intros _. right. by rewrite strings_HasSuffix_slash.
  - split; [exact Hq|]. intros ->. cbn [andb] in Hcond.
    destruct (String.eqb_spec q "/") as [->|_]; [by left|].
    right. exact Hcond.
Qed.

Lemma StripSlashes_normal_form_witness :
  exists w1 req1 u1,
    wrap_with (StripSlashes true) path_spy 1%positive
      (sample_world (sample_url "http" "///v1//foo///"))
    = path_spy 1%positive w1 /\
    request_url w1 1%positive = Some (req1, u1) /\
    norun false (Path u1) = true /\
    (true = true -> Path u1 = "/" \/ strings_HasSuffix (Path u1) "/" = false).
Proof.
  apply (StripSlashes_normal_form true path_spy 1%positive
           (sample_world (sample_url "http" "///v1//foo///"))
           (mkRequest "GET" (Some 1%positive) (Some 1%positive) None)
           (sample_url "http" "///v1//foo///"));
    [reflexivity | reflexivity | discriminate | reflexivity].
Defined.

(** X16: [StripSlashes] is idempotent on such URLs: installed twice in a
    row, it hands the wrapped executor a URL with the same path as when it
    is installed once. *)
Theorem StripSlashes_twice (strip : bool) (base : DoerFunc)
    (r : positive) (w : World) (req : Request) (u : URL) :
  request_url w r = Some (req, u) ->
  RawPath u = "" ->
  Path u <> "" ->
  dotfree true (Path u) = true ->
  exists w1 req1 u1 w2 req2 u2,
    applyMiddlewares base [StripSlashes strip] r w = base r w1 /\
    request_url w1 r = Some (req1, u1) /\
    applyMiddlewares base [StripSlashes strip; StripSlashes strip] r w
    = base r w2 /\
    request_url w2 r = Some (req2, u2) /\
    Path u2 = Path u1.
Proof.
  intros Hu Hraw Hne Hfree. rewrite !applyMiddlewares_cons.
  change (applyMiddlewares base []) with base.
  destruct (StripSlashes_sees strip base r w req u Hu)
    as (w1 & req1 & Hrun1 & Hu1).
  destruct (StripSlashes_sees strip (wrap_with (StripSlashes strip) base)
              r w req u Hu) as (w1' & req1' & Hrun1' & Hu1').
  destruct (StripSlashes_sees strip base r w1' req1' _ Hu1')
    as (w2 & req2 & Hrun2 & Hu2).
  exists w1, req1, (stripped_URL strip u), w2, req2,
    (stripped_URL strip (stripped_URL strip u)).
  split; [exact Hrun1|]. split; [exact Hu1|].
  split; [by rewrite Hrun1', Hrun2|]. split; [exact Hu2|].
  by apply stripped_URL_idempotent.
Qed.

Lemma StripSlashes_twice_witness :
  exists w1 req1 u1 w2 req2 u2,
    applyMiddlewares path_spy [StripSlashes true] 1%positive
      (sample_world (sample_url "http" "///v1//foo///"))
    = path_spy 1%positive w1 /\
    request_url w1 1%positive = Some (req1, u1) /\
    applyMiddlewares path_spy [StripSlashes true; StripSlashes true]
      1%positive (sample_world (sample_url "http" "///v1//foo///"))
    = path_spy 1%positive w2 /\
    request_url w2 1%positive = Some (req2, u2) /\
    Path u2 = Path u1.
Proof.
  apply (StripSlashes_twice true path_spy 1%positive
           (sample_world (sample_url "http" "///v1//foo///"))
           (mkRequest "GET" (Some 1%positive) (Some 1%positive) None)
           (sample_url "http" "///v1//foo///"));
    [reflexivity | reflexivity | discriminate | reflexivity].
Defined.

(** ** Package [httpctest] *)

Lemma adler32_update_app d p q :
  adler32_update d (p +:+ q) = adler32_update (adler32_update d p) q.
Proof.
  revert d. induction p as [|x p IH]; intros d; [reflexivity|].
  rewrite string_app_cons. cbn [adler32_update]. apply IH.
Qed.

Lemma adler32_three d x1 x2 x3 :
  adler32_update d (String x1 (String x2 (String x3 "")))
  = (((fst d + (N_of_ascii x1 + N_of_ascii x2 + N_of_ascii x3)) mod 65521)%N,
     ((snd d + 3 * fst d
       + (3 * N_of_ascii x1 + 2 * N_of_ascii x2 + N_of_ascii x3)) mod 65521)%N).
Proof.
  destruct d as [s1 s2]. cbn [adler32_update]. unfold adler32_step.
  cbn [fst snd].
  generalize (N_of_ascii x1) (N_of_ascii x2) (N_of_ascii x3). intros a b c.
  rewrite (N.Div0.add_mod_idemp_l (s1 + a) b).
  rewrite (N.Div0.add_mod_idemp_l (s1 + a + b) c).
  rewrite (N.Div0.add_mod_idemp_r s2 (s1 + a)).
  rewrite <- (N.Div0.add_mod (s2 + (s1 + a)) (s1 + a + b)).
  rewrite <- (N.Div0.add_mod (s2 + (s1 + a) + (s1 + a + b)) (s1 + a + b + c)).
  f_equal; f_equal; lia.
Qed.

(** X17: the name under which a request is recorded and replayed is an
    Adler-32 sum, and sums collide.  Two dumps that differ only in three
    consecutive bytes get the same name whenever the three bytes have the
    same sum and the same weighted sum, as have [020] and [101]: a replay
    can then answer one request with the response recorded for another. *)
Theorem buildName_collides (pre suf : string) (x1 x2 x3 y1 y2 y3 : ascii) :
  (N_of_ascii x1 + N_of_ascii x2 + N_of_ascii x3
   = N_of_ascii y1 + N_of_ascii y2 + N_of_ascii y3)%N ->
  (3 * N_of_ascii x1 + 2 * N_of_ascii x2 + N_of_ascii x3
   = 3 * N_of_ascii y1 + 2 * N_of_ascii y2 + N_of_ascii y3)%N ->
  buildName (pre +:+ String x1 (String x2 (String x3 "")) +:+ suf)
  = buildName (pre +:+ String y1 (String y2 (String y3 "")) +:+ suf).
Proof.
  intros Hs Hw. unfold buildName, adler32_Checksum.
  rewrite !adler32_update_app, !adler32_three, Hs, Hw. reflexivity.
Qed.

Lemma buildName_collides_witness :
  buildName ("GET /" +:+ "020" +:+ " HTTP/1.1")
  = buildName ("GET /" +:+ "101" +:+ " HTTP/1.1")
  /\ "020" <> "101".
Proof.
  split; [|discriminate].
  apply (buildName_collides "GET /" " HTTP/1.1" "0" "2" "0" "1" "0" "1");
    reflexivity.
Defined.


(** ** Basic authentication *)

Lemma lor_disjoint (x lo n : N) :
  (x mod 2 ^ n = 0)%N -> (lo < 2 ^ n)%N -> N.lor x lo = (x + lo)%N.
Proof.
  intros Hx Hlo.
  assert (N.land x lo = 0%N) as Hland.
  { apply N.bits_inj. intros i. rewrite N.land_spec, N.bits_0.
    destruct (N.lt_ge_cases i n) as [Hi|Hi].
    - apply N.Div0.div_exact in Hx. rewrite Hx, N.mul_comm.
      by rewrite N.mul_pow2_bits_low.
    - rewrite <- (N.mod_small lo (2 ^ n)) by exact Hlo.
      rewrite N.mod_pow2_bits_high by exact Hi. apply andb_false_r. }
  by rewrite <- N.lxor_lor, N.add_nocarry_lxor.
Qed.

Lemma sextet_value (v k : N) :
  N.land (N.shiftr v k) 63 = ((v / 2 ^ k) mod 64)%N.
Proof.
  rewrite N.shiftr_div_pow2. change 63%N with (N.ones 6).
  rewrite N.land_ones. reflexivity.
Qed.

Lemma val3_value (na nb nc : N) :
  (na < 256)%N -> (nb < 256)%N -> (nc < 256)%N ->
  N.lor (N.lor (N.shiftl na 16) (N.shiftl nb 8)) nc
  = (na * 65536 + nb * 256 + nc)%N.
Proof.
  intros Ha Hb Hc. rewrite !N.shiftl_mul_pow2.
  change (2 ^ 16)%N with 65536%N. change (2 ^ 8)%N with 256%N.
  rewrite (lor_disjoint (na * 65536) (nb * 256) 16).
  - apply (lor_disjoint _ nc 8); [|exact Hc].
    change (2 ^ 8)%N with 256%N. zify. Z.to_euclidean_division_equations. lia.
  - change (2 ^ 16)%N with 65536%N. zify. Z.to_euclidean_division_equations.
    lia.
  - change (2 ^ 16)%N with 65536%N. lia.
Qed.

Lemma val2_value (na nb : N) :
  (na < 256)%N -> (nb < 256)%N ->
  N.lor (N.shiftl na 16) (N.shiftl nb 8) = (na * 65536 + nb * 256)%N.
Proof.
  intros Ha Hb. pose proof (val3_value na nb 0 Ha Hb) as H.
  rewrite N.lor_0_r, N.add_0_r in H. apply H. lia.
Qed.

Lemma enc64_dec64 (n : N) :
  (n < 64)%N -> dec64 (enc64 n) = Some n /\ Ascii.eqb (enc64 n) "=" = false.
Proof.
  intros Hn. rewrite <- (N2Nat.id n). assert (N.to_nat n < 64)%nat as Hk by lia.
  revert Hk. generalize (N.to_nat n). intros k Hk.
  do 64 (destruct k as [|k]; [split; reflexivity|]). lia.
Qed.

Lemma mod64_lt (x : N) : (x mod 64 < 64)%N.
Proof. by apply N.mod_lt. Qed.

Lemma string_ind3 (P : string -> Prop) :
  P "" ->
  (forall a, P (String a "")) ->
  (forall a b, P (String a (String b ""))) ->
  (forall a b c rest, P rest -> P (String a (String b (String c rest)))) ->
  forall s, P s.
Proof.
  intros H0 H1 H2 H3.
  refine (fix F (s : string) : P s :=
            match s with
            | EmptyString => H0
            | String a EmptyString => H1 a
            | String a (String b EmptyString) => H2 a b
            | String a (String b (String c rest)) => H3 a b c rest (F rest)
            end).
Qed.

Lemma base64_round_trip s : base64_decode (base64_EncodeToString s) = Some s.
Proof.
  induction s as [|a|a b|a b c rest IH] using string_ind3; [reflexivity| | |].
  - cbn [base64_EncodeToString]. unfold sextet.
    pose proof (N_ascii_bounded a) as Ha.
    rewrite N.shiftl_mul_pow2, !sextet_value.
    change (2 ^ 16)%N with 65536%N. change (2 ^ 18)%N with 262144%N.
    change (2 ^ 12)%N with 4096%N.
    set (n0 := ((N_of_ascii a * 65536 / 262144) mod 64)%N).
    set (n1 := ((N_of_ascii a * 65536 / 4096) mod 64)%N).
    cbn [base64_decode].
    rewrite (proj1 (enc64_dec64 n0 (mod64_lt _))),
      (proj1 (enc64_dec64 n1 (mod64_lt _))).
    cbn [Ascii.eqb Bool.eqb andb string_is_empty].
    replace (n0 * 4 + n1 / 16)%N with (N_of_ascii a)
      by (subst n0 n1; zify; Z.to_euclidean_division_equations; lia).
    by rewrite ascii_N_embedding.
  - cbn [base64_EncodeToString]. unfold sextet.
    pose proof (N_ascii_bounded a) as Ha. pose proof (N_ascii_bounded b) as Hb.
    rewrite val2_value by assumption. rewrite !sextet_value.
    change (2 ^ 18)%N with 262144%N. change (2 ^ 12)%N with 4096%N.
    change (2 ^ 6)%N with 64%N.
    set (v := (N_of_ascii a * 65536 + N_of_ascii b * 256)%N).
    set (n0 := ((v / 262144) mod 64)%N). set (n1 := ((v / 4096) mod 64)%N).
    set (n2 := ((v / 64) mod 64)%N).
    cbn [base64_decode].
    rewrite (proj1 (enc64_dec64 n0 (mod64_lt _))),
      (proj1 (enc64_dec64 n1 (mod64_lt _))),
      (proj2 (enc64_dec64 n2 (mod64_lt _))),
      (proj1 (enc64_dec64 n2 (mod64_lt _))).
    cbn [Ascii.eqb Bool.eqb andb string_is_empty].
    replace (n0 * 4 + n1 / 16)%N with (N_of_ascii a)
      by (subst n0 n1 v; zify; Z.to_euclidean_division_equations; lia).
    replace (n1 mod 16 * 16 + n2 / 4)%N with (N_of_ascii b)
      by (subst n1 n2 v; zify; Z.to_euclidean_division_equations; lia).
    by rewrite !ascii_N_embedding.
  - cbn [base64_EncodeToString]. unfold sextet.
    pose proof (N_ascii_bounded a) as Ha. pose proof (N_ascii_bounded b) as Hb.
    pose proof (N_ascii_bounded c) as Hc.
    rewrite val3_value by assumption. rewrite !sextet_value.
    change (2 ^ 18)%N with 262144%N. change (2 ^ 12)%N with 4096%N.
    change (2 ^ 6)%N with 64%N. change (2 ^ 0)%N with 1%N.
    set (v := (N_of_ascii a * 65536 + N_of_ascii b * 256 + N_of_ascii c)%N).
    set (n0 := ((v / 262144) mod 64)%N). set (n1 := ((v / 4096) mod 64)%N).
    set (n2 := ((v / 64) mod 64)%N). set (n3 := ((v / 1) mod 64)%N).
    cbn [base64_decode].
    rewrite (proj1 (enc64_dec64 n0 (mod64_lt _))),
      (proj1 (enc64_dec64 n1 (mod64_lt _))),
      (proj2 (enc64_dec64 n2 (mod64_lt _))),
      (proj1 (enc64_dec64 n2 (mod64_lt _))),
      (proj2 (enc64_dec64 n3 (mod64_lt _))),
      (proj1 (enc64_dec64 n3 (mod64_lt _))).
    rewrite IH. cbn [option_map].
    replace (n0 * 4 + n1 / 16)%N with (N_of_ascii a)
      by (subst n0 n1 v; zify; Z.to_euclidean_division_equations; lia).
    replace (n1 mod 16 * 16 + n2 / 4)%N with (N_of_ascii b)
      by (subst n1 n2 v; zify; Z.to_euclidean_division_equations; lia).
    replace (n2 mod 4 * 64 + n3)%N with (N_of_ascii c)
      by (subst n2 n3 v; zify; Z.to_euclidean_division_equations; lia).
    by rewrite !ascii_N_embedding.
Qed.

(** X19: [AuthorizationBasic] makes the wrapped executor see the header
    [Authorization] with the single value made of the word Basic, a space
    and the base64 form of [user:pass].  That form can be decoded back to
    [user:pass], so two pairs of credentials give the same header exactly
    when their joined strings are the same. *)
Theorem AuthorizationBasic_credentials (canon : string -> string)
    (u1 p1 u2 p2 : string) (next : DoerFunc) (r : positive) (w : World)
    (req : Request) (a : positive) (h : gmap string (list string)) :
  requests w !! r = Some req ->
  req_Header req = Some a ->
  headers w !! a = Some h ->
  wrap_with (AuthorizationBasic canon u1 p1) next r w
  = next r
      (set_headers
         (insert a (<[canon "Authorization" := ["Basic " +:+ basicAuth u1 p1]]> h))
         w) /\
  base64_decode (basicAuth u1 p1) = Some (u1 +:+ ":" +:+ p1) /\
  (basicAuth u1 p1 = basicAuth u2 p2
   <-> u1 +:+ ":" +:+ p1 = u2 +:+ ":" +:+ p2).
Proof.
  intros Hr Ha Hh. split; [|split].
  - cbn [wrap_with AuthorizationBasic]. by rewrite Hr, Ha, Hh.
  - apply base64_round_trip.
  - split; [|by unfold basicAuth; intros ->].
    intros He. apply (f_equal base64_decode) in He.
    unfold basicAuth in He. rewrite !base64_round_trip in He. congruence.
Qed.

Lemma AuthorizationBasic_credentials_witness :
  wrap_with (AuthorizationBasic (fun k => k) "foo" "bar") recording_base
    1%positive (sample_world (sample_url "https" "/"))
  = recording_base 1%positive
      (set_headers
         (insert 1%positive
            (<["Authorization" := ["Basic " +:+ basicAuth "foo" "bar"]]>
               {[ "X-Foo" := ["old"; "older"] ]}))
         (sample_world (sample_url "https" "/"))) /\
  base64_decode (basicAuth "foo" "bar") = Some ("foo" +:+ ":" +:+ "bar") /\
  (basicAuth "foo" "bar" = basicAuth "fo" "o:bar"
   <-> "foo" +:+ ":" +:+ "bar" = "fo" +:+ ":" +:+ "o:bar").
Proof.
  apply (AuthorizationBasic_credentials (fun k => k) "foo" "bar" "fo" "o:bar"
           recording_base 1%positive (sample_world (sample_url "https" "/"))
           (mkRequest "GET" (Some 1%positive) (Some 1%positive) None)
           1%positive {[ "X-Foo" := ["old"; "older"] ]}); reflexivity.
Defined.

(** The value the tests expect for the user foo and the password bar. *)
Example basicAuth_foo_bar : "Basic " +:+ basicAuth "foo" "bar" = "Basic Zm9vOmJhcg==".
Proof. reflexivity. Qed.

(** X20: the colon that joins user and password is not escaped, so the
    header does not tell where the user name ends: a user name with a colon
    in it gives the middleware of the shorter user name with the rest moved
    to the password. *)
Theorem AuthorizationBasic_colon (canon : string -> string) (u p q : string) :
  AuthorizationBasic canon (u +:+ ":" +:+ p) q
  = AuthorizationBasic canon u (p +:+ ":" +:+ q).
Proof.
  unfold AuthorizationBasic, basicAuth.
  by rewrite !string_app_assoc.
Qed.

(** ** Timeout and Recover in a chain *)

(** X21: around an executor that watches the context of its request,
    [Timeout(d)] decides between the answer and the deadline.  For a request
    on the background context, an executor that needs [delay] to answer
    returns its answer after [delay] when [delay] is less than [d], and the
    call fails with [DeadlineExceeded] after [d] when [d] is less than
    [delay]. *)
Theorem Timeout_cooperative (d delay : Z) (r : positive) (w : World)
    (req : Request) :
  0 < d ->
  0 <= delay ->
  d <> delay ->
  requests w !! r = Some req ->
  Request_Context req = backgroundCtx ->
  fst (wrap_with (Timeout d) (waiting_base delay) r w)
  = (if d <? delay then Returns None (Some DeadlineExceeded)
     else Returns (Some (mkResponse 200 (Some (nopBody "Some stubbed stuff."))))
                  None) /\
  now (snd (wrap_with (Timeout d) (waiting_base delay) r w))
  = now w + Z.min d delay.
Proof.
  intros Hd Hdelay Hne Hr Hbg.
  unfold Timeout. destruct (Z.leb_spec d 0) as [?|_]; [lia|].
  cbn [wrap_with]. rewrite Hr. unfold context_WithTimeout. rewrite Hbg.
  set (id := fresh (dom (cancels w))).
  set (ctx := timerCtx backgroundCtx id (now w + d)).
  set (w1 := set_cancels (insert id None) w).
  set (r2 := fresh (dom (requests w1))).
  set (w2 := set_requests (insert r2 (Request_WithContext req ctx)) w1).
  assert (waiting_base delay r2 w2
          = if d <? delay
            then (Returns None (Some DeadlineExceeded),
                  set_now (now w + d) w2)
            else (Returns
                    (Some (mkResponse 200
                             (Some (nopBody "Some stubbed stuff.")))) None,
                  set_now (now w + delay) w2)) as ->.
  { unfold waiting_base. subst w2. cbn [requests set_requests].
    rewrite lookup_insert_eq.
    cbn [Request_Context Request_WithContext req_ctx cancels set_requests].
    subst ctx w1. cbn [ctx_event cancels set_cancels now set_requests].
    rewrite lookup_insert_eq. cbn [fst].
    destruct (Z.leb_spec (now w + d) (now w + delay));
      destruct (Z.ltb_spec d delay); try lia; [|reflexivity].
    do 2 f_equal. lia. }
  destruct (Z.ltb_spec d delay) as [Hlt|Hge]; cbn [fst snd];
    (split; [reflexivity|]);
    rewrite (proj1 (proj2 (proj2 (proj2 (cancel_frame _ _ _)))));
    cbn [now set_now]; lia.
Qed.

Lemma Timeout_cooperative_witness :
  fst (wrap_with (Timeout 5) (waiting_base 10) 1%positive
         (sample_world (sample_url "https" "/")))
  = Returns None (Some DeadlineExceeded) /\
  now (snd (wrap_with (Timeout 5) (waiting_base 10) 1%positive
              (sample_world (sample_url "https" "/"))))
  = 0 + Z.min 5 10.
Proof.
  apply (Timeout_cooperative 5 10 1%positive
           (sample_world (sample_url "https" "/"))
           (mkRequest "GET" (Some 1%positive) (Some 1%positive) None));
    [lia | lia | lia | reflexivity | reflexivity].
Defined.

(** X22: [Recover] inside a chain lets the middlewares outside it finish.
    Whatever runs inside ([Recover]'s followers and the base), middlewares
    of the before-and-after kind placed before [Recover] run their
    after-logic, in reverse order, also when the inside panics; the panic
    reaches them as the returned [*PanicError]. *)
Theorem Recover_inside_chain (debug_Stack : World -> string)
    (base : DoerFunc)
    (outer : list ((positive -> World -> World) * (positive -> World -> World)))
    (inner : list MiddlewareFunc) (r : positive) (w : World) :
  applyMiddlewares base
    (map (fun ba => around (fst ba) (snd ba)) outer
     ++ Recover debug_Stack :: inner) r w
  = match applyMiddlewares base inner r (before_all outer r w) with
    | (Returns resp err, w') => (Returns resp err, after_all outer r w')
    | (Panics v, w') =>
        (Returns None (Some (PanicErrorPtr v (debug_Stack w'))),
         after_all outer r w')
    end.
Proof.
  revert w. induction outer as [|[b a] outer IH]; intros w.
  - cbn [map app]. rewrite applyMiddlewares_cons. cbn [wrap_with Recover].
    unfold before_all, after_all. cbn [foldl foldr].
    destruct (applyMiddlewares base inner r w) as [[resp err|v] w'];
      reflexivity.
  - cbn [map app]. rewrite applyMiddlewares_cons.
    cbn [fst snd wrap_with around]. rewrite IH.
    unfold before_all, after_all. cbn [foldl foldr fst snd].
    destruct (applyMiddlewares base inner r _) as [[resp err|v] w'];
      reflexivity.
Qed.
